(** * uid64: a Snowflake-style 64-bit identifier generator

    Shallow embedding of [uid64.go] and the properties of its
    bit-packing and clock/sequence state machine.

    Conventions.
    - Go's [int64] (and [int], taken to be 64 bits wide) is a [Z] kept in
      the signed range by [Int64.wrap]; every operation of the source that
      can leave the range is wrapped explicitly.
    - A Go result [(T, error)] is a pair whose second component is
      [None] for [nil].
    - [NextID] talks to two things outside the generator: the wall clock
      ([time.Now]) and the host ([net.Interfaces], [rand.Int]).  Both are
      scripts carried by the [World]: the answers the environment is going
      to give, in order.  A computation that asks for more answers than the
      script holds has no result ([None]): it is still waiting.
    - The mutex of the source serialises calls; the model is the
      sequential behaviour under that lock. *)

From Stdlib Require Import ZArith List Bool Lia Sorted.
From Stdlib.Strings Require Import String Ascii Byte.
Import ListNotations.
Local Open Scope Z_scope.

(** ** Machine integers *)

Module Int64.

Definition half : Z := 2 ^ 63.
Definition modulus : Z := 2 ^ 64.

(** Two's complement wrap-around into [-2^63, 2^63). *)
Definition wrap (z : Z) : Z := (z + half) mod modulus - half.

Definition add (x y : Z) : Z := wrap (x + y).
Definition sub (x y : Z) : Z := wrap (x - y).

(** Go's [x << n] on [int64]: the bits shifted out are lost. *)
Definition shl (x n : Z) : Z := wrap (Z.shiftl x n).

Definition in_range (z : Z) : Prop := - half <= z < half.

End Int64.

(** ** Constants of the package *)

Definition unusedBits : Z := 1.
Definition epochBits : Z := 41.
Definition nodeIDBits : Z := 10.
Definition sequenceBits : Z := 12.

Definition maxNodeID : Z := 2 ^ nodeIDBits - 1.
Definition maxSequence : Z := 2 ^ sequenceBits - 1.
Definition customEpoch : Z := 1420070400000.

(** [time.Millisecond], in nanoseconds. *)
Definition Millisecond : Z := 1000000.

Inductive error : Type :=
| ErrInvalidState
| ErrOutOfBoundNodeID
| ErrNet (msg : string).

(** ** The generator *)

Record Generator : Type := mkGenerator {
  nodeID : Z;
  lastTimestamp : Z;
  sequence : Z
}.

Definition New : Generator :=
  {| nodeID := 0; lastTimestamp := -1; sequence := 0 |}.

Definition NewWithNodeID (n : Z) : option Generator * option error :=
  if (n <? 0) || (n >? maxNodeID) then (None, Some ErrOutOfBoundNodeID)
  else (Some {| nodeID := n; lastTimestamp := -1; sequence := 0 |}, None).

(** ** The host: network interfaces and the random source *)

Record Interface : Type := { HardwareAddr : list byte }.

(** What the host answers during one call of [createNodeID]:
    the result of [net.Interfaces()] and the value [rand.Int()] would
    return (a non-negative [int]). *)
Record Host : Type := {
  net_Interfaces : list Interface * option error;
  rand_Int : Z
}.

Definition host_ok (h : Host) : Prop := 0 <= rand_Int h < Int64.half.

Definition hexDigit (n : N) : ascii :=
  match String.get (N.to_nat n) "0123456789ABCDEF" with
  | Some c => c
  | None => "0"%char
  end.

(** [fmt.Sprintf("%02X", b)] *)
Definition sprintf_02X (b : byte) : string :=
  let n := Byte.to_N b in
  String (hexDigit (n / 16)) (String (hexDigit (n mod 16)) EmptyString).

(** [hash/fnv]: 32-bit FNV-1a over a byte sequence. *)
Definition offset32 : Z := 2166136261.
Definition prime32 : Z := 16777619.

Definition fnv32a (data : list Z) : Z :=
  fold_left (fun h b => (Z.lxor h b * prime32) mod 2 ^ 32) data offset32.

Definition bytes_of_string (s : string) : list Z :=
  map (fun c => Z.of_N (N_of_ascii c)) (list_ascii_of_string s).

Definition createNodeID (h : Host) : Z * option error :=
  let nodeID := 0 in
  let '(ifaces, err) := net_Interfaces h in
  match err with
  | Some e => (nodeID, Some e)
  | None =>
      let sb :=
        String.concat ""
          (map (fun i => String.concat "" (map sprintf_02X (HardwareAddr i)))
               ifaces) in
      if (String.length sb =? 0)%nat then (rand_Int h, None)
      else (Z.land (fnv32a (bytes_of_string sb)) maxNodeID, None)
  end.

(** ** The clock *)

(** [timestamp()], given the reading of [time.Now().UnixNano()].
    Go's integer division truncates towards zero. *)
Definition timestamp (unixNano : Z) : Z :=
  Int64.sub (Z.quot unixNano Millisecond) customEpoch.

(** ** The world and its monad *)

Record World : Type := mkWorld {
  gen : Generator;
  clock : list Z;     (* readings of time.Now().UnixNano() still to come *)
  hosts : list Host   (* host answers for the createNodeID calls to come *)
}.

Definition M (A : Type) : Type := World -> option (A * World).

Definition ret {A} (a : A) : M A := fun w => Some (a, w).

Definition bind {A B} (m : M A) (k : A -> M B) : M B :=
  fun w => match m w with
           | Some (a, w') => k a w'
           | None => None
           end.

Notation "x <- m ;; k" := (bind m (fun x => k))
  (at level 61, m at next level, right associativity).
Notation "m ;; k" := (bind m (fun _ => k))
  (at level 61, right associativity).

Definition getG : M Generator := fun w => Some (gen w, w).

Definition putG (g : Generator) : M unit :=
  fun w => Some (tt, {| gen := g; clock := clock w; hosts := hosts w |}).

Definition set_nodeID (v : Z) : M unit :=
  g <- getG ;;
  putG {| nodeID := v; lastTimestamp := lastTimestamp g; sequence := sequence g |}.

Definition set_lastTimestamp (v : Z) : M unit :=
  g <- getG ;;
  putG {| nodeID := nodeID g; lastTimestamp := v; sequence := sequence g |}.

Definition set_sequence (v : Z) : M unit :=
  g <- getG ;;
  putG {| nodeID := nodeID g; lastTimestamp := lastTimestamp g; sequence := v |}.

(** One call of [timestamp()]: takes the next clock reading. *)
Definition call_timestamp : M Z :=
  fun w => match clock w with
           | [] => None
           | now :: rest =>
               Some (timestamp now,
                     {| gen := gen w; clock := rest; hosts := hosts w |})
           end.

(** One call of [createNodeID()]: takes the next host answer. *)
Definition call_createNodeID : M (Z * option error) :=
  fun w => match hosts w with
           | [] => None
           | h :: rest =>
               Some (createNodeID h,
                     {| gen := gen w; clock := clock w; hosts := rest |})
           end.

(** The loop of [blockWaitToNextMillisecond] over the readings to come:
    [for g.lastTimestamp == currentTimestamp { currentTimestamp = timestamp() }]. *)
Fixpoint spin (last currentTimestamp : Z) (readings : list Z)
  : option (Z * list Z) :=
  if last =? currentTimestamp then
    match readings with
    | [] => None
    | now :: rest => spin last (timestamp now) rest
    end
  else Some (currentTimestamp, readings).

Definition blockWaitToNextMillisecond (currentTimestamp : Z) : M Z :=
  fun w => match spin (lastTimestamp (gen w)) currentTimestamp (clock w) with
           | Some (t, rest) =>
               Some (t, {| gen := gen w; clock := rest; hosts := hosts w |})
           | None => None
           end.

Definition NextID : M (Z * option error) :=
  g <- getG ;;
  failed <-
    (if nodeID g =? 0 then
       r <- call_createNodeID ;;
       match snd r with
       | Some err => ret (Some err)
       | None => set_nodeID (fst r) ;; ret None
       end
     else ret None) ;;
  match failed with
  | Some err => ret (0, Some err)
  | None =>
      currentTimestamp <- call_timestamp ;;
      g <- getG ;;
      if currentTimestamp <? lastTimestamp g then
        ret (0, Some ErrInvalidState)
      else
        currentTimestamp <-
          (if currentTimestamp =? lastTimestamp g then
             set_sequence (Z.land (Int64.add (sequence g) 1) maxSequence) ;;
             g <- getG ;;
             if sequence g =? 0 then
               (* Sequence Exhausted, wait till next millisecond. *)
               blockWaitToNextMillisecond currentTimestamp
             else ret currentTimestamp
           else
             set_sequence 0 ;; ret currentTimestamp) ;;
        set_lastTimestamp currentTimestamp ;;
        g <- getG ;;
        let id := Int64.shl currentTimestamp (nodeIDBits + sequenceBits) in
        let id := Z.lor id (Int64.shl (nodeID g) sequenceBits) in
        let id := Z.lor id (sequence g) in
        ret (id, None)
  end.

(** Up to [k] calls of [NextID] in a row on the same generator; the
    results of the calls that returned, in order, and the world they leave.
    A call the scripts cannot answer to the end never returns, and nothing
    follows it. *)
Fixpoint session (k : nat) (w : World) : list (Z * option error) * World :=
  match k with
  | O => ([], w)
  | S k' =>
      match NextID w with
      | None => ([], w)
      | Some (r, w') =>
          let (rs, w'') := session k' w' in (r :: rs, w'')
      end
  end.

(** The identifiers issued among the results of a session. *)
Fixpoint issued (rs : list (Z * option error)) : list Z :=
  match rs with
  | [] => []
  | (id, None) :: rs' => id :: issued rs'
  | (_, Some _) :: rs' => issued rs'
  end.

(** Milliseconds since the custom epoch, as a clock reading. *)
Definition reading (ms : Z) : Z := (ms + customEpoch) * Millisecond.

(** The block of [NextID] that resolves the node id on first use
    ([if g.nodeID == 0 { ... }]); its result is the error, if any. *)
Definition lazyNodeID : M (option error) :=
  g <- getG ;;
  if nodeID g =? 0 then
    r <- call_createNodeID ;;
    match snd r with
    | Some err => ret (Some err)
    | None => set_nodeID (fst r) ;; ret None
    end
  else ret None.

(** The rest of [NextID], from the clock reading on. *)
Definition issue : M (Z * option error) :=
  currentTimestamp <- call_timestamp ;;
  g <- getG ;;
  if currentTimestamp <? lastTimestamp g then
    ret (0, Some ErrInvalidState)
  else
    currentTimestamp <-
      (if currentTimestamp =? lastTimestamp g then
         set_sequence (Z.land (Int64.add (sequence g) 1) maxSequence) ;;
         g <- getG ;;
         if sequence g =? 0 then
           blockWaitToNextMillisecond currentTimestamp
         else ret currentTimestamp
       else
         set_sequence 0 ;; ret currentTimestamp) ;;
    set_lastTimestamp currentTimestamp ;;
    g <- getG ;;
    let id := Int64.shl currentTimestamp (nodeIDBits + sequenceBits) in
    let id := Z.lor id (Int64.shl (nodeID g) sequenceBits) in
    let id := Z.lor id (sequence g) in
    ret (id, None).

(** The expression that packs the three fields (the last lines of [NextID]). *)
Definition compose (t n s : Z) : Z :=
  Z.lor (Z.lor (Int64.shl t (nodeIDBits + sequenceBits))
               (Int64.shl n sequenceBits))
        s.

(** The inverse shifts: the fields of an identifier. *)
Definition timestamp_field (id : Z) : Z := Z.shiftr id (nodeIDBits + sequenceBits).
Definition nodeID_field (id : Z) : Z := Z.land (Z.shiftr id sequenceBits) maxNodeID.
Definition sequence_field (id : Z) : Z := Z.land id maxSequence.

Definition decompose (id : Z) : Z * Z * Z :=
  (timestamp_field id, nodeID_field id, sequence_field id).

(** A timestamp that fits the 41-bit field (with its sign). *)
Definition fits_field (t : Z) : Prop := - 2 ^ epochBits <= t < 2 ^ epochBits.

(** ** Quantities and conditions used in the statements *)

(** What a timestamp becomes once shifted into the upper 42 bits. *)
Definition field_wrap (t : Z) : Z :=
  (t + 2 ^ epochBits) mod 2 ^ (epochBits + 1) - 2 ^ epochBits.

(** The number an identifier stands for when nothing overflows: the three
    fields read as one number, most significant first. *)
Definition key (g : Generator) : Z :=
  lastTimestamp g * 2 ^ 22 + nodeID g * 2 ^ 12 + sequence g.

Definition node_ok (g : Generator) : Prop := 0 <= nodeID g <= maxNodeID.

Definition seq_ok (g : Generator) : Prop := 0 <= sequence g <= maxSequence.

(** Every answer of the provider still to come is a 10-bit value. *)
Definition provider_in_range (hs : list Host) : Prop :=
  Forall (fun h => 0 <= fst (createNodeID h) <= maxNodeID) hs.

(** Every timestamp still to come fits the 41-bit field. *)
Definition clock_fits (clk : list Z) : Prop :=
  Forall (fun now => fits_field (timestamp now)) clk.

(** No reading is earlier than the one before it. *)
Definition clock_monotone (clk : list Z) : Prop :=
  Sorted Z.le (map timestamp clk).

Definition clock_ok (clk : list Z) : Prop :=
  clock_fits clk /\ StronglySorted Z.le (map timestamp clk).

(** ** Hosts and worlds of the worked runs *)

(** A host with one network interface; its node id is 217. *)
Definition host_eth : Host :=
  {| net_Interfaces := ([ {| HardwareAddr := [x01; xab] |} ], None);
     rand_Int := 77 |}.

(** A host without hardware addresses; [rand.Int()] answers a 63-bit
    value (this one is the first of Go's source under its fixed seed 1). *)
Definition host_bare : Host :=
  {| net_Interfaces := ([], None); rand_Int := 5577006791947779410 |}.

(** A host whose interfaces cannot be listed. *)
Definition host_down : Host :=
  {| net_Interfaces := ([], Some (ErrNet "route ip+net: netlinkrib: too many open files"));
     rand_Int := 77 |}.

(** Six readings over three milliseconds, node id still to be resolved. *)
Definition world_lazy : World :=
  mkWorld New (map reading [5; 5; 5; 6; 6; 7]) [host_eth].

(** The clock steps from the last millisecond of the 41-bit field to the
    next one. *)
Definition world_2084 : World :=
  mkWorld (mkGenerator 1 (-1) 0) [reading (2 ^ 41 - 1); reading (2 ^ 41)] [].

(** The clock is behind the generator. *)
Definition world_behind : World :=
  mkWorld (mkGenerator 1 10 3) [reading 7] [].

(** 4098 readings of millisecond 5, then milliseconds 6 and 7. *)
Definition world_burst : World :=
  mkWorld (mkGenerator 1 (-1) 0)
          (repeat (reading 5) 4098 ++ [reading 6; reading 7]) [].

(** The generator after 4096 identifiers in millisecond 5. *)
Definition world_exhausted : World :=
  mkWorld (mkGenerator 1 5 4095)
          [reading 5; reading 5; reading 6; reading 7] [].

(** ** Quantities used for the rest of the code *)

(** The hardware address bytes of all interfaces, in order: what
    [createNodeID] writes, two hex digits a byte, into its builder. *)
Definition address_bytes (ifaces : list Interface) : list byte :=
  List.concat (map HardwareAddr ifaces).

(** The builder's content for a sequence of bytes. *)
Definition hex_of (bs : list byte) : string :=
  String.concat "" (map sprintf_02X bs).

(** A host with a loopback interface only (no hardware address). *)
Definition host_loopback : Host :=
  {| net_Interfaces := ([ {| HardwareAddr := [] |} ], None); rand_Int := 3000 |}.

(** The same two address bytes as [host_eth], one per interface. *)
Definition host_split : Host :=
  {| net_Interfaces :=
       ([ {| HardwareAddr := [x01] |}; {| HardwareAddr := [] |};
          {| HardwareAddr := [xab] |} ], None);
     rand_Int := 12345 |}.

(** The ways the issuing part of [NextID] returns, one constructor for each
    path through its [switch]: the clock went back; same millisecond with a
    sequence number left; same millisecond with the sequence exhausted and
    a wait; a later millisecond. *)
Inductive issues (w1 : World) : Z * option error -> World -> Prop :=
| issues_regress now rest :
    clock w1 = now :: rest ->
    timestamp now < lastTimestamp (gen w1) ->
    issues w1 (0, Some ErrInvalidState) (mkWorld (gen w1) rest (hosts w1))
| issues_next now rest s :
    clock w1 = now :: rest ->
    timestamp now = lastTimestamp (gen w1) ->
    s = (sequence (gen w1) + 1) mod 4096 -> s <> 0 ->
    issues w1
      (compose (lastTimestamp (gen w1)) (nodeID (gen w1)) s, None)
      (mkWorld (mkGenerator (nodeID (gen w1)) (lastTimestamp (gen w1)) s)
               rest (hosts w1))
| issues_wait now pre later rest' :
    clock w1 = now :: pre ++ later :: rest' ->
    timestamp now = lastTimestamp (gen w1) ->
    (sequence (gen w1) + 1) mod 4096 = 0 ->
    Forall (fun x => timestamp x = lastTimestamp (gen w1)) pre ->
    timestamp later <> lastTimestamp (gen w1) ->
    issues w1
      (compose (timestamp later) (nodeID (gen w1)) 0, None)
      (mkWorld (mkGenerator (nodeID (gen w1)) (timestamp later) 0)
               rest' (hosts w1))
| issues_advance now rest :
    clock w1 = now :: rest ->
    lastTimestamp (gen w1) < timestamp now ->
    issues w1
      (compose (timestamp now) (nodeID (gen w1)) 0, None)
      (mkWorld (mkGenerator (nodeID (gen w1)) (timestamp now) 0)
               rest (hosts w1)).

(** Sequence 4095 in millisecond 9; the clock reads 9, then goes back to 4. *)
Definition world_backstep : World :=
  mkWorld (mkGenerator 1 9 4095) [reading 9; reading 4; reading 10] [].

(** A generator in millisecond 5, sequence 3, the clock still there. *)
Definition world_same : World :=
  mkWorld (mkGenerator 1 5 3) [reading 5; reading 6] [].

(** A second generator, node id 2, at the same clock. *)
Definition world_other : World :=
  mkWorld (mkGenerator 2 5 3) [reading 5; reading 6] [].

(** A fresh generator and a clock one millisecond before the custom epoch,
    then before that. *)
Definition world_epoch : World :=
  mkWorld (mkGenerator 1 (-1) 0) [reading (-1); reading (-2)] [].

(** A clock before the custom epoch on a fresh generator. *)
Definition world_1999 : World :=
  mkWorld (mkGenerator 1 (-1) 0) [reading (-473385600000)] [].

(** A provider that fails, then answers 0 twice, then 217. *)
Definition world_retry : World :=
  mkWorld New (map reading [5; 5; 6; 7])
          [host_down;
           {| net_Interfaces := ([], None); rand_Int := 0 |};
           {| net_Interfaces := ([], None); rand_Int := 0 |};
           host_eth].

(** A generator last used in millisecond 4, the clock now in 5. *)
Definition world_ahead : World :=
  mkWorld (mkGenerator 1 4 3) [reading 5; reading 6] [].

(** Sequence 4095 in the last millisecond of the 41-bit field; the clock
    reads it once more, then the next millisecond. *)
Definition world_rollover : World :=
  mkWorld (mkGenerator 1 (2 ^ 41 - 1) 4095)
          [reading (2 ^ 41 - 1); reading (2 ^ 41)] [].

(** Sequence 4095 in millisecond 5; the clock reads 5, then jumps ahead by
    [2^42] milliseconds. *)
Definition world_jump : World :=
  mkWorld (mkGenerator 1 5 4095) [reading 5; reading (5 + 2 ^ 42)] [].

(** * Properties *)

(** ** Arithmetic of the 64-bit operations *)

Module Int64Facts.

Lemma wrap_in_range z : Int64.in_range (Int64.wrap z).
Proof.
  unfold Int64.in_range, Int64.wrap, Int64.half, Int64.modulus.
  assert (H := Z.mod_pos_bound (z + 2 ^ 63) (2 ^ 64) ltac:(lia)). lia.
Qed.

Lemma wrap_id z : Int64.in_range z -> Int64.wrap z = z.
Proof.
  unfold Int64.in_range, Int64.wrap, Int64.half, Int64.modulus. intros H.
  rewrite Z.mod_small; lia.
Qed.

(** Wrapping forgets multiples of [2^64] only. *)
Lemma wrap_mod z k : 0 <= k <= 64 -> Int64.wrap z mod 2 ^ k = z mod 2 ^ k.
Proof.
  intros Hk. unfold Int64.wrap, Int64.half, Int64.modulus.
  assert (E : 2 ^ 64 = 2 ^ k * 2 ^ (64 - k)).
  { rewrite <- Z.pow_add_r by lia. f_equal. lia. }
  assert (P : 0 < 2 ^ k) by (apply Z.pow_pos_nonneg; lia).
  rewrite (Z.mod_eq (z + 2 ^ 63) (2 ^ 64)) by lia.
  replace (z + 2 ^ 63 - 2 ^ 64 * ((z + 2 ^ 63) / 2 ^ 64) - 2 ^ 63)
    with (z + (- (2 ^ (64 - k) * ((z + 2 ^ 63) / 2 ^ 64))) * 2 ^ k)
    by (rewrite E; ring).
  apply Z.mod_add. lia.
Qed.

(** A left shift by [k] wraps its operand to [64 - k] bits. *)
Lemma shl_wraps x k :
  0 <= k < 64 ->
  Int64.shl x k = ((x + 2 ^ (63 - k)) mod 2 ^ (64 - k) - 2 ^ (63 - k)) * 2 ^ k.
Proof.
  intros Hk. unfold Int64.shl, Int64.wrap, Int64.half, Int64.modulus.
  rewrite Z.shiftl_mul_pow2 by lia.
  assert (E64 : 2 ^ 64 = 2 ^ (64 - k) * 2 ^ k).
  { rewrite <- Z.pow_add_r by lia. f_equal. lia. }
  assert (E63 : 2 ^ 63 = 2 ^ (63 - k) * 2 ^ k).
  { rewrite <- Z.pow_add_r by lia. f_equal. lia. }
  assert (P : 0 < 2 ^ k) by (apply Z.pow_pos_nonneg; lia).
  assert (Q : 0 < 2 ^ (64 - k)) by (apply Z.pow_pos_nonneg; lia).
  rewrite E64, E63.
  replace (x * 2 ^ k + 2 ^ (63 - k) * 2 ^ k) with ((x + 2 ^ (63 - k)) * 2 ^ k) by ring.
  rewrite Z.mul_mod_distr_r by lia. ring.
Qed.

Lemma shl_small x k :
  0 <= k < 64 -> - 2 ^ (63 - k) <= x < 2 ^ (63 - k) ->
  Int64.shl x k = x * 2 ^ k.
Proof.
  intros Hk Hx. rewrite shl_wraps by lia. f_equal.
  assert (E : 2 ^ (64 - k) = 2 * 2 ^ (63 - k)).
  { rewrite <- Z.pow_succ_r by lia. f_equal. lia. }
  rewrite Z.mod_small; lia.
Qed.

End Int64Facts.

(** ** Arithmetic of the packing *)

Lemma field_wrap_fits t : fits_field t -> field_wrap t = t.
Proof.
  unfold fits_field, field_wrap, epochBits. change (41 + 1) with 42. intros H.
  rewrite Z.mod_small; lia.
Qed.

(** Or-ing into bits that are zero is an addition. *)
Lemma lor_low a b k :
  0 <= k -> 0 <= b < 2 ^ k -> Z.lor (a * 2 ^ k) b = a * 2 ^ k + b.
Proof.
  intros Hk Hb.
  assert (D : Z.land (a * 2 ^ k) b = 0).
  { apply Z.bits_inj'. intros i Hi.
    rewrite Z.land_spec, Z.bits_0.
    destruct (Z.lt_ge_cases i k) as [L | G].
    - rewrite Z.mul_pow2_bits_low by lia. reflexivity.
    - replace b with (b mod 2 ^ k) by (apply Z.mod_small; lia).
      rewrite Z.mod_pow2_bits_high by lia. apply andb_false_r. }
  rewrite <- Z.lxor_lor by exact D.
  symmetry. apply Z.add_nocarry_lxor. exact D.
Qed.

Lemma compose_value t n s :
  0 <= n <= maxNodeID -> 0 <= s <= maxSequence ->
  compose t n s = field_wrap t * 2 ^ 22 + n * 2 ^ 12 + s.
Proof.
  unfold maxNodeID, maxSequence, compose, field_wrap, nodeIDBits, sequenceBits, epochBits.
  change (10 + 12) with 22. change (41 + 1) with 42. intros Hn Hs.
  rewrite (Int64Facts.shl_wraps t 22) by lia.
  rewrite (Int64Facts.shl_small n 12) by (change (63 - 12) with 51; lia).
  change (63 - 22) with 41. change (64 - 22) with 42.
  set (T := (t + 2 ^ 41) mod 2 ^ 42 - 2 ^ 41).
  rewrite (lor_low T (n * 2 ^ 12) 22) by lia.
  replace (T * 2 ^ 22 + n * 2 ^ 12) with ((T * 2 ^ 10 + n) * 2 ^ 12)
    by (change (2 ^ 22) with (2 ^ 10 * 2 ^ 12); ring).
  rewrite lor_low by lia.
  change (2 ^ 22) with (2 ^ 10 * 2 ^ 12). ring.
Qed.

Lemma compose_fits t n s :
  fits_field t -> 0 <= n <= maxNodeID -> 0 <= s <= maxSequence ->
  compose t n s = t * 2 ^ 22 + n * 2 ^ 12 + s.
Proof.
  intros Ht Hn Hs. rewrite compose_value by assumption.
  rewrite field_wrap_fits by assumption. reflexivity.
Qed.

(** The low twelve bits are the sequence, whatever the other two
    operands are. *)
Lemma compose_sequence_field t n s :
  0 <= s <= maxSequence -> sequence_field (compose t n s) = s.
Proof.
  unfold sequence_field, compose. unfold maxSequence, nodeIDBits, sequenceBits.
  change (10 + 12) with 22. intros Hs.
  rewrite (Int64Facts.shl_wraps t 22), (Int64Facts.shl_wraps n 12) by lia.
  change (63 - 22) with 41. change (64 - 22) with 42.
  change (63 - 12) with 51. change (64 - 12) with 52.
  set (T := (t + 2 ^ 41) mod 2 ^ 42 - 2 ^ 41).
  set (N := (n + 2 ^ 51) mod 2 ^ 52 - 2 ^ 51).
  replace (T * 2 ^ 22) with ((T * 2 ^ 10) * 2 ^ 12)
    by (change (2 ^ 22) with (2 ^ 10 * 2 ^ 12); ring).
  rewrite <- !Z.shiftl_mul_pow2 by lia.
  rewrite <- Z.shiftl_lor.
  rewrite (Z.shiftl_mul_pow2 _ 12) by lia.
  rewrite lor_low by lia.
  change (2 ^ 12 - 1) with (Z.ones 12).
  rewrite Z.land_ones by lia.
  rewrite Z.add_comm, Z.mod_add by lia.
  apply Z.mod_small. lia.
Qed.

Lemma compose_nodeID_field t n s :
  0 <= n <= maxNodeID -> 0 <= s <= maxSequence ->
  nodeID_field (compose t n s) = n.
Proof.
  intros Hn Hs. rewrite compose_value by assumption.
  unfold nodeID_field. unfold maxNodeID, maxSequence, nodeIDBits, sequenceBits in *.
  change (2 ^ 10 - 1) with (Z.ones 10).
  rewrite Z.land_ones, Z.shiftr_div_pow2 by lia.
  generalize (field_wrap t). intros T.
  replace (T * 2 ^ 22 + n * 2 ^ 12 + s) with (s + (T * 2 ^ 10 + n) * 2 ^ 12)
    by (change (2 ^ 22) with (2 ^ 10 * 2 ^ 12); ring).
  rewrite Z.div_add by lia.
  rewrite (Z.div_small s) by lia.
  rewrite Z.add_0_l, Z.add_comm, Z.mod_add by lia.
  apply Z.mod_small. lia.
Qed.

Lemma compose_timestamp_field t n s :
  0 <= n <= maxNodeID -> 0 <= s <= maxSequence ->
  timestamp_field (compose t n s) = field_wrap t.
Proof.
  intros Hn Hs. rewrite compose_value by assumption.
  unfold timestamp_field. unfold maxNodeID, maxSequence, nodeIDBits, sequenceBits in *.
  change (10 + 12) with 22. rewrite Z.shiftr_div_pow2 by lia.
  generalize (field_wrap t). intros T.
  replace (T * 2 ^ 22 + n * 2 ^ 12 + s) with ((n * 2 ^ 12 + s) + T * 2 ^ 22) by ring.
  rewrite Z.div_add by lia.
  rewrite Z.div_small by lia. lia.
Qed.

(** ** The shape of one call *)

(** [NextID] is the resolution block followed by the issuing part. *)
Lemma NextID_split w :
  NextID w =
  match lazyNodeID w with
  | None => None
  | Some (Some err, w1) => Some ((0, Some err), w1)
  | Some (None, w1) => issue w1
  end.
Proof.
  unfold NextID, lazyNodeID, bind, getG. simpl.
  destruct (nodeID (gen w) =? 0).
  - destruct (call_createNodeID w) as [[[nid [e|]] w1]|]; reflexivity.
  - reflexivity.
Qed.

(** The resolution block, case by case. *)
Lemma lazyNodeID_eq w :
  lazyNodeID w =
  if nodeID (gen w) =? 0 then
    match hosts w with
    | [] => None
    | h :: hs =>
        match snd (createNodeID h) with
        | Some err => Some (Some err, mkWorld (gen w) (clock w) hs)
        | None =>
            Some (None,
                  mkWorld (mkGenerator (fst (createNodeID h))
                                       (lastTimestamp (gen w))
                                       (sequence (gen w)))
                          (clock w) hs)
        end
    end
  else Some (None, w).
Proof.
  unfold lazyNodeID, bind, getG, call_createNodeID. simpl.
  destruct (nodeID (gen w) =? 0); [|reflexivity].
  destruct (hosts w) as [|h hs]; [reflexivity|].
  destruct (snd (createNodeID h)); reflexivity.
Qed.

(** The issuing part, case by case. *)
Lemma issue_eq w :
  issue w =
  match clock w with
  | [] => None
  | now :: rest =>
      let g := gen w in
      let t := timestamp now in
      if t <? lastTimestamp g then
        Some ((0, Some ErrInvalidState), mkWorld g rest (hosts w))
      else if t =? lastTimestamp g then
        let s := Z.land (Int64.add (sequence g) 1) maxSequence in
        if s =? 0 then
          match spin (lastTimestamp g) t rest with
          | None => None
          | Some (t', rest') =>
              Some ((compose t' (nodeID g) s, None),
                    mkWorld (mkGenerator (nodeID g) t' s) rest' (hosts w))
          end
        else
          Some ((compose t (nodeID g) s, None),
                mkWorld (mkGenerator (nodeID g) t s) rest (hosts w))
      else
        Some ((compose t (nodeID g) 0, None),
              mkWorld (mkGenerator (nodeID g) t 0) rest (hosts w))
  end.
Proof.
  destruct w as [g clk hs]. destruct clk as [|now rest]; [reflexivity|].
  unfold issue, bind, call_timestamp, getG. simpl.
  destruct (timestamp now <? lastTimestamp g); [reflexivity|].
  destruct (timestamp now =? lastTimestamp g); [|reflexivity].
  unfold set_sequence, bind, getG, putG. simpl.
  destruct (Z.land (Int64.add (sequence g) 1) maxSequence =? 0); [|reflexivity].
  unfold blockWaitToNextMillisecond. simpl.
  destruct (spin (lastTimestamp g) (timestamp now) rest) as [[t' rest']|];
    reflexivity.
Qed.

(** ** The waiting loop *)

(** With readings that stay in the exhausted millisecond and then one that
    leaves it, the loop ends at that one. *)
Lemma spin_finds last pre now rest :
  Forall (fun x => timestamp x = last) pre ->
  timestamp now <> last ->
  spin last last (pre ++ now :: rest) = Some (timestamp now, rest).
Proof.
  intros Hpre Hnow. induction Hpre as [|x pre Hx _ IH]; simpl.
  - rewrite Z.eqb_refl.
    destruct rest; simpl;
      (destruct (last =? timestamp now) eqn:E;
       [apply Z.eqb_eq in E; congruence | reflexivity]).
  - rewrite Z.eqb_refl, Hx. exact IH.
Qed.

(** Whatever the loop returns differs from the exhausted millisecond, and
    was either the timestamp it started with or one of the readings. *)
Lemma spin_sound readings : forall last cur t' rest,
  spin last cur readings = Some (t', rest) ->
  t' <> last /\
  (t' = cur /\ rest = readings \/
   exists pre now, readings = pre ++ now :: rest /\ timestamp now = t').
Proof.
  induction readings as [|x xs IH]; intros last cur t' rest; simpl.
  - destruct (last =? cur) eqn:E; [discriminate|].
    intros [= <- <-]. apply Z.eqb_neq in E. split; [congruence | left; auto].
  - destruct (last =? cur) eqn:E.
    + intros H. apply IH in H as [Hne [[-> ->] | (pre & now & -> & <-)]].
      * split; [exact Hne|]. right. exists [], x. split; reflexivity.
      * split; [exact Hne|]. right. exists (x :: pre), now. split; reflexivity.
    + intros [= <- <-]. apply Z.eqb_neq in E. split; [congruence | left; auto].
Qed.

Lemma spin_waits last readings :
  Forall (fun x => timestamp x = last) readings ->
  spin last last readings = None.
Proof.
  intros H. induction H as [|x xs Hx _ IH]; simpl; rewrite Z.eqb_refl.
  - reflexivity.
  - rewrite Hx. exact IH.
Qed.

(** ** What a successful call returns *)

Lemma land_maxSequence x :
  Z.land x maxSequence = x mod 2 ^ sequenceBits /\
  0 <= Z.land x maxSequence <= maxSequence.
Proof.
  unfold maxSequence, sequenceBits. change (2 ^ 12 - 1) with (Z.ones 12).
  rewrite Z.land_ones by lia.
  assert (H := Z.mod_pos_bound x (2 ^ 12) ltac:(lia)).
  change (Z.ones 12) with (2 ^ 12 - 1). split; [reflexivity | lia].
Qed.

Lemma next_sequence s :
  Z.land (Int64.add s 1) maxSequence = (s + 1) mod 2 ^ sequenceBits.
Proof.
  destruct (land_maxSequence (Int64.add s 1)) as [-> _].
  unfold Int64.add, sequenceBits. apply Int64Facts.wrap_mod. lia.
Qed.

(** An issued identifier packs the state the call leaves behind, and that
    state's sequence is a 12-bit value. *)
Lemma NextID_issued w id w' :
  NextID w = Some ((id, None), w') ->
  id = compose (lastTimestamp (gen w')) (nodeID (gen w')) (sequence (gen w')) /\
  0 <= sequence (gen w') <= maxSequence.
Proof.
  rewrite NextID_split.
  destruct (lazyNodeID w) as [[[e|] w1]|]; try discriminate.
  rewrite issue_eq. destruct (clock w1) as [|now rest]; [discriminate|]. cbv zeta.
  destruct (timestamp now <? lastTimestamp (gen w1)); [discriminate|].
  destruct (timestamp now =? lastTimestamp (gen w1)).
  - destruct (Z.land (Int64.add (sequence (gen w1)) 1) maxSequence =? 0).
    + destruct (spin _ _ _) as [[t' rest']|]; [|discriminate].
      intros [= <- <-]. simpl. split; [reflexivity|]. apply land_maxSequence.
    + intros [= <- <-]. simpl. split; [reflexivity|]. apply land_maxSequence.
  - intros [= <- <-]. simpl. split; [reflexivity|]. unfold maxSequence, sequenceBits. lia.
Qed.

(** * The claims *)

(** ** Construction *)

(** C9.  [NewWithNodeID] fails with [ErrOutOfBoundNodeID] exactly when the
    node id is outside [0, 1023], and then yields no generator; inside the
    range it yields the generator carrying that node id.  In particular
    1024 and every negative value are refused, 0 and 1023 are accepted. *)
Theorem NewWithNodeID_bounds (n : Z) :
  (snd (NewWithNodeID n) = Some ErrOutOfBoundNodeID <-> ~ (0 <= n <= 1023)) /\
  (~ (0 <= n <= 1023) -> NewWithNodeID n = (None, Some ErrOutOfBoundNodeID)) /\
  (0 <= n <= 1023 ->
   NewWithNodeID n =
   (Some {| nodeID := n; lastTimestamp := -1; sequence := 0 |}, None)) /\
  NewWithNodeID 1024 = (None, Some ErrOutOfBoundNodeID) /\
  (n < 0 -> NewWithNodeID n = (None, Some ErrOutOfBoundNodeID)) /\
  fst (NewWithNodeID 0) <> None /\ snd (NewWithNodeID 0) = None /\
  fst (NewWithNodeID 1023) <> None /\ snd (NewWithNodeID 1023) = None.
Proof.
  assert (Out : ~ (0 <= n <= 1023) ->
                NewWithNodeID n = (None, Some ErrOutOfBoundNodeID)).
  { intros H. unfold NewWithNodeID, maxNodeID, nodeIDBits.
    change (2 ^ 10 - 1) with 1023.
    destruct (n <? 0) eqn:L; [reflexivity|].
    destruct (n >? 1023) eqn:G; [reflexivity|]. lia. }
  assert (In : 0 <= n <= 1023 ->
               NewWithNodeID n =
               (Some {| nodeID := n; lastTimestamp := -1; sequence := 0 |}, None)).
  { intros H. unfold NewWithNodeID, maxNodeID, nodeIDBits.
    change (2 ^ 10 - 1) with 1023.
    destruct (n <? 0) eqn:L; [lia|].
    destruct (n >? 1023) eqn:G; [lia|]. reflexivity. }
  repeat split; try (intros; discriminate); try reflexivity; auto.
  - intros E R. rewrite (In R) in E. discriminate.
  - intros H. rewrite (Out H). reflexivity.
  - intros H. apply Out. lia.
Qed.

(** ** Failing calls *)

(** C2.  When the call gets past the node-id block and the timestamp it
    samples is below [lastTimestamp], it returns [(0, ErrInvalidState)]:
    no identifier, and [lastTimestamp] and [sequence] are what they were
    before the call. *)
Theorem NextID_clock_regression (w w1 : World) (now : Z) (rest : list Z) :
  lazyNodeID w = Some (None, w1) ->
  clock w1 = now :: rest ->
  timestamp now < lastTimestamp (gen w) ->
  NextID w = Some ((0, Some ErrInvalidState), mkWorld (gen w1) rest (hosts w1)) /\
  lastTimestamp (gen w1) = lastTimestamp (gen w) /\
  sequence (gen w1) = sequence (gen w).
Proof.
  intros Hl Hc Ht.
  assert (Same : lastTimestamp (gen w1) = lastTimestamp (gen w) /\
                 sequence (gen w1) = sequence (gen w)).
  { rewrite lazyNodeID_eq in Hl.
    destruct (nodeID (gen w) =? 0).
    - destruct (hosts w) as [|h hs]; [discriminate|].
      destruct (snd (createNodeID h)); [discriminate|].
      injection Hl as <-. simpl. auto.
    - injection Hl as <-. auto. }
  split; [|exact Same].
  rewrite NextID_split, Hl, issue_eq, Hc. cbv zeta.
  destruct Same as [-> _].
  apply Z.ltb_lt in Ht. rewrite Ht. reflexivity.
Qed.

(** C10.  When the generator has no node id yet and the provider fails,
    the call returns identifier 0 with the provider's error; the generator
    is untouched and the clock has not been read. *)
Theorem NextID_resolution_failure
        (w : World) (h : Host) (hs : list Host) (e : error) :
  nodeID (gen w) = 0 ->
  hosts w = h :: hs ->
  snd (createNodeID h) = Some e ->
  NextID w = Some ((0, Some e), mkWorld (gen w) (clock w) hs).
Proof.
  intros Hn Hh He.
  rewrite NextID_split, lazyNodeID_eq, Hn, Hh, He. reflexivity.
Qed.

(** ** The identifier *)

(** C7.  An identifier returned without error is
    [(t << 22) | (n << 12) | s], the shifts being [nodeIDBits + sequenceBits]
    and [sequenceBits], with [t], [n], [s] the timestamp, node id and
    sequence the generator holds when the call returns. *)
Theorem NextID_composition (w w' : World) (id : Z) :
  NextID w = Some ((id, None), w') ->
  id = Z.lor (Z.lor (Int64.shl (lastTimestamp (gen w')) 22)
                    (Int64.shl (nodeID (gen w')) 12))
             (sequence (gen w')) /\
  nodeIDBits + sequenceBits = 22 /\ sequenceBits = 12.
Proof.
  intros H. apply NextID_issued in H as [-> _].
  repeat split.
Qed.

(** C8, as the code has it.  For [t] in [0, 2^41), [n] in [0, 1023] and
    [s] in [0, 4095] the inverse shifts give back [(t, n, s)] from the
    packed value, which is not negative; and an identifier issued by a call
    of [NextID] that leaves such a timestamp and node id in the generator
    decomposes into the [lastTimestamp], [nodeID] and [sequence] the call
    leaves, and is not negative. *)
Theorem field_round_trip (t n s : Z) :
  0 <= t < 2 ^ 41 -> 0 <= n <= 1023 -> 0 <= s <= 4095 ->
  decompose (compose t n s) = (t, n, s) /\
  0 <= compose t n s /\
  forall w id w',
    NextID w = Some ((id, None), w') ->
    lastTimestamp (gen w') = t -> nodeID (gen w') = n ->
    decompose id = (t, n, sequence (gen w')) /\ 0 <= id.
Proof.
  intros Ht Hn Hs.
  assert (Fit : fits_field t) by (unfold fits_field, epochBits; lia).
  assert (Hn' : 0 <= n <= maxNodeID) by (unfold maxNodeID, nodeIDBits; lia).
  assert (Pack : forall s', 0 <= s' <= maxSequence ->
                   decompose (compose t n s') = (t, n, s') /\ 0 <= compose t n s').
  { intros s' Hs'. unfold decompose.
    rewrite compose_timestamp_field, compose_nodeID_field,
            compose_sequence_field, field_wrap_fits by assumption.
    split; [reflexivity|].
    rewrite compose_fits by assumption.
    unfold maxSequence, sequenceBits in Hs'. lia. }
  split; [|split].
  - apply Pack. unfold maxSequence, sequenceBits. lia.
  - apply Pack. unfold maxSequence, sequenceBits. lia.
  - intros w id w' H Et En. apply NextID_issued in H as [-> Hseq].
    rewrite Et, En. apply Pack. exact Hseq.
Qed.

(** ** Sequence exhaustion *)

(** C6, as the code has it.  A call that samples [lastTimestamp] again
    moves [sequence] to [(sequence + 1) mod 4096].  Unless that is 0 the
    identifier is issued in the same millisecond.  When it is 0 the call
    keeps reading the clock: as long as the readings stay in the exhausted
    millisecond it does not return; at the first reading that leaves it,
    the call returns the identifier packed from that new timestamp and
    sequence 0, having consumed every reading up to that one.  Its sequence
    field is 0.  When the new timestamp lies in [-2^41, 2^41) and the node
    id in [0, 1023], its timestamp field is the new timestamp: different
    from the exhausted millisecond, and greater when the clock did not go
    back; and when the exhausted millisecond lies in that range too, the
    identifier is not the one of sequence 0 in the exhausted millisecond. *)
Theorem NextID_same_millisecond (w w1 : World) (now : Z) (rest : list Z) :
  lazyNodeID w = Some (None, w1) ->
  clock w1 = now :: rest ->
  timestamp now = lastTimestamp (gen w1) ->
  let g := gen w1 in
  let last := lastTimestamp g in
  let s := (sequence g + 1) mod 4096 in
  (s <> 0 ->
   NextID w = Some ((compose last (nodeID g) s, None),
                    mkWorld (mkGenerator (nodeID g) last s) rest (hosts w1))) /\
  (s = 0 ->
   (Forall (fun x => timestamp x = last) rest -> NextID w = None) /\
   forall pre later rest',
     rest = pre ++ later :: rest' ->
     Forall (fun x => timestamp x = last) pre ->
     timestamp later <> last ->
     let t' := timestamp later in
     let id := compose t' (nodeID g) 0 in
     NextID w = Some ((id, None),
                      mkWorld (mkGenerator (nodeID g) t' 0) rest' (hosts w1)) /\
     sequence_field id = 0 /\
     (last <= t' -> last < t') /\
     (- 2 ^ 41 <= t' < 2 ^ 41 -> 0 <= nodeID g <= 1023 ->
      timestamp_field id = t' /\
      timestamp_field id <> last /\
      (last <= t' -> last < timestamp_field id) /\
      (- 2 ^ 41 <= last < 2 ^ 41 -> id <> compose last (nodeID g) 0))).
Proof.
  intros Hl Hc Ht g last s.
  assert (Es : Z.land (Int64.add (sequence g) 1) maxSequence = s)
    by apply next_sequence.
  assert (Shape : NextID w =
            if s =? 0 then
              match spin last last rest with
              | None => None
              | Some (t', rest') =>
                  Some ((compose t' (nodeID g) s, None),
                        mkWorld (mkGenerator (nodeID g) t' s) rest' (hosts w1))
              end
            else Some ((compose last (nodeID g) s, None),
                       mkWorld (mkGenerator (nodeID g) last s) rest (hosts w1))).
  { rewrite NextID_split, Hl, issue_eq, Hc. cbv zeta. fold g. rewrite Ht. fold last.
    rewrite Z.ltb_irrefl, Z.eqb_refl, Es. reflexivity. }
  split.
  - intros Hs. rewrite Shape. apply Z.eqb_neq in Hs. rewrite Hs. reflexivity.
  - intros Hs. rewrite Hs in Shape. simpl in Shape. split.
    + intros Hall. rewrite Shape, spin_waits by exact Hall. reflexivity.
    + intros pre later rest' -> Hpre Hlater t' id.
      rewrite Shape, spin_finds by assumption.
      fold t' in Hlater.
      assert (Z0 : 0 <= 0 <= maxSequence)
        by (unfold maxSequence, sequenceBits; lia).
      split; [reflexivity|]. split; [|split].
      * apply compose_sequence_field. exact Z0.
      * intros Hle. lia.
      * intros Hfit Hn.
        assert (Hfit' : fits_field t') by exact Hfit.
        assert (Hn' : 0 <= nodeID g <= maxNodeID) by exact Hn.
        assert (F : timestamp_field id = t').
        { unfold id.
          rewrite compose_timestamp_field, field_wrap_fits by assumption.
          reflexivity. }
        split; [exact F|]. rewrite F. split; [exact Hlater|].
        split; [intros Hle; lia|].
        intros Hlast E. unfold id in E.
        assert (Hlast' : fits_field last) by exact Hlast.
        rewrite !compose_fits in E by assumption.
        unfold maxNodeID, nodeIDBits in Hn'. lia.
Qed.

(** ** Explicit node ids *)

(** With a node id other than 0 the resolution block does nothing. *)
Lemma NextID_nodeID_kept w r w' :
  nodeID (gen w) <> 0 ->
  NextID w = Some (r, w') ->
  hosts w' = hosts w /\ nodeID (gen w') = nodeID (gen w).
Proof.
  intros Hn. rewrite NextID_split, lazyNodeID_eq.
  apply Z.eqb_neq in Hn. rewrite Hn.
  rewrite issue_eq. destruct (clock w) as [|now rest]; [discriminate|]. cbv zeta.
  destruct (timestamp now <? lastTimestamp (gen w)).
  { intros [= <- <-]. auto. }
  destruct (timestamp now =? lastTimestamp (gen w)).
  - destruct (Z.land (Int64.add (sequence (gen w)) 1) maxSequence =? 0).
    + destruct (spin _ _ _) as [[t' rest']|]; [|discriminate].
      intros [= <- <-]. auto.
    + intros [= <- <-]. auto.
  - intros [= <- <-]. auto.
Qed.

Lemma session_nodeID_kept n : forall k w,
  n <> 0 -> 0 <= n <= maxNodeID -> nodeID (gen w) = n ->
  hosts (snd (session k w)) = hosts w /\
  nodeID (gen (snd (session k w))) = n /\
  Forall (fun id => nodeID_field id = n) (issued (fst (session k w))).
Proof.
  induction k as [|k IH]; intros w Hn0 Hn Hw; simpl.
  - auto.
  - destruct (NextID w) as [[[id e] w1]|] eqn:E; simpl; [|auto].
    destruct (NextID_nodeID_kept w _ _ ltac:(congruence) E) as [Hh Hk].
    destruct (IH w1 Hn0 Hn ltac:(congruence)) as (IHh & IHn & IHf).
    destruct (session k w1) as [rs w2]. simpl in *.
    split; [congruence|]. split; [exact IHn|].
    destruct e as [e|]; [exact IHf|].
    constructor; [|exact IHf].
    apply NextID_issued in E as [-> Hs].
    rewrite Hk, Hw. apply compose_nodeID_field; assumption.
Qed.

(** X17.  Explicit node ids other than 0.  For a generator constructed with a
    node id [n] in [1, 1023], no call of [NextID] asks the provider (the host
    script is left as it was, whatever it holds), the generator keeps [n],
    and the node-id field of every identifier issued is [n]. *)
Theorem explicit_nodeID_bypasses_provider
        (n : Z) (k : nat) (clk : list Z) (hs : list Host) :
  1 <= n <= 1023 ->
  exists g,
    NewWithNodeID n = (Some g, None) /\
    hosts (snd (session k (mkWorld g clk hs))) = hs /\
    nodeID (gen (snd (session k (mkWorld g clk hs)))) = n /\
    Forall (fun id => nodeID_field id = n)
           (issued (fst (session k (mkWorld g clk hs)))).
Proof.
  intros Hn. exists {| nodeID := n; lastTimestamp := -1; sequence := 0 |}.
  split.
  - unfold NewWithNodeID, maxNodeID, nodeIDBits. change (2 ^ 10 - 1) with 1023.
    destruct (n <? 0) eqn:L; [lia|]. destruct (n >? 1023) eqn:G; [lia|].
    reflexivity.
  - apply (session_nodeID_kept n k (mkWorld _ clk hs)).
    + lia.
    + unfold maxNodeID, nodeIDBits. lia.
    + reflexivity.
Qed.

(** ** Order of the identifiers *)

Lemma clock_ok_intro clk : clock_fits clk -> clock_monotone clk -> clock_ok clk.
Proof.
  intros F S. split; [exact F|].
  apply Sorted_StronglySorted; [|exact S].
  intros x y z. apply Z.le_trans.
Qed.

Lemma clock_ok_cons now rest :
  clock_ok (now :: rest) ->
  fits_field (timestamp now) /\
  Forall (fun x => timestamp now <= timestamp x) rest /\
  clock_ok rest.
Proof.
  intros [F S]. inversion F as [|? ? Fn Fr]; subst.
  simpl in S. apply StronglySorted_inv in S as [Sr Hd].
  rewrite Forall_map in Hd.
  split; [exact Fn|]. split; [exact Hd|]. split; assumption.
Qed.

Lemma clock_ok_app pre post : clock_ok (pre ++ post) -> clock_ok post.
Proof.
  induction pre as [|x pre IH]; simpl; intros H; [exact H|].
  apply IH. apply clock_ok_cons in H. apply H.
Qed.

(** The resolution block touches the node id only, and only upwards
    from 0. *)
Lemma lazyNodeID_step w o w1 :
  node_ok (gen w) -> provider_in_range (hosts w) ->
  lazyNodeID w = Some (o, w1) ->
  node_ok (gen w1) /\ provider_in_range (hosts w1) /\
  clock w1 = clock w /\
  lastTimestamp (gen w1) = lastTimestamp (gen w) /\
  sequence (gen w1) = sequence (gen w) /\
  nodeID (gen w) <= nodeID (gen w1).
Proof.
  unfold node_ok, provider_in_range. intros Hn Hp. rewrite lazyNodeID_eq.
  destruct (nodeID (gen w) =? 0) eqn:E.
  - apply Z.eqb_eq in E.
    destruct (hosts w) as [|h hs]; [discriminate|].
    inversion Hp as [|? ? Hh Hhs]; subst.
    destruct (snd (createNodeID h)); intros [= <- <-]; simpl;
      repeat split; auto; lia.
  - intros [= <- <-]. repeat split; auto; lia.
Qed.

Ltac five_parts := split; [|split; [|split; [|split]]].

Section Step.

Variables (w : World) (r : Z * option error) (w' : World).
Hypothesis Hnode : node_ok (gen w).
Hypothesis Hprov : provider_in_range (hosts w).
Hypothesis Hclock : clock_ok (clock w).
Hypothesis Hcall : NextID w = Some (r, w').

(** What one call does to the facts the order argument rests on. *)
Lemma NextID_step :
  node_ok (gen w') /\ provider_in_range (hosts w') /\ clock_ok (clock w') /\
  (snd r <> None ->
   key (gen w) <= key (gen w') /\ (seq_ok (gen w) -> seq_ok (gen w'))) /\
  (snd r = None ->
   seq_ok (gen w') /\ fst r = key (gen w') /\
   (seq_ok (gen w) -> key (gen w) < key (gen w'))).
Proof.
  revert Hcall. rewrite NextID_split.
  destruct (lazyNodeID w) as [[[err|] w1]|] eqn:El; [| |discriminate];
    apply lazyNodeID_step in El as (N1 & P1 & C1 & L1 & S1 & M1);
    try assumption.
  - (* resolution failed *)
    intros [= <- <-]. simpl. five_parts.
    + exact N1.
    + exact P1.
    + rewrite C1. exact Hclock.
    + intros _. unfold seq_ok, key in *. rewrite S1, L1. split; [lia | auto].
    + discriminate.
  - (* the issuing part *)
    rewrite issue_eq, C1.
    destruct (clock w) as [|now rest] eqn:Ec; [discriminate|]. cbv zeta.
    apply clock_ok_cons in Hclock as (Fnow & Later & Hrest).
    rewrite L1, S1.
    destruct (land_maxSequence (Int64.add (sequence (gen w)) 1)) as [_ Rng].
    pose proof (next_sequence (sequence (gen w))) as Nx.
    destruct (timestamp now <? lastTimestamp (gen w)) eqn:Elt.
    { (* the clock went back *)
      intros [= <- <-]. simpl. five_parts.
      - exact N1.
      - exact P1.
      - exact Hrest.
      - intros _. unfold seq_ok, key in *. rewrite S1, L1. split; [lia | auto].
      - discriminate. }
    apply Z.ltb_ge in Elt.
    destruct (timestamp now =? lastTimestamp (gen w)) eqn:Eeq.
    + apply Z.eqb_eq in Eeq.
      destruct (Z.land (Int64.add (sequence (gen w)) 1) maxSequence =? 0) eqn:Ez.
      * (* sequence exhausted *)
        apply Z.eqb_eq in Ez.
        destruct (spin _ _ _) as [[t' rest']|] eqn:Esp; [|discriminate].
        apply spin_sound in Esp as [Hne [[Ht' _] | (pre & later & Hpre & Hlater)]];
          [congruence|].
        intros [= <- <-]. simpl.
        assert (Ok' : clock_ok (later :: rest')).
        { apply (clock_ok_app pre). rewrite <- Hpre. exact Hrest. }
        apply clock_ok_cons in Ok' as (Flater & _ & Hrest').
        assert (Hge : timestamp now <= timestamp later).
        { rewrite Forall_forall in Later. apply Later.
          rewrite Hpre. apply in_or_app. right. left. reflexivity. }
        rewrite Hlater in *. five_parts.
        -- exact N1.
        -- exact P1.
        -- exact Hrest'.
        -- intros H. exfalso. apply H. reflexivity.
        -- intros _. split; [exact Rng|]. split.
           ++ apply compose_fits; assumption.
           ++ unfold seq_ok, node_ok, key, maxNodeID, maxSequence,
                nodeIDBits, sequenceBits in *.
              cbn [lastTimestamp nodeID sequence gen]. intros Hs. lia.
      * (* same millisecond, next sequence *)
        apply Z.eqb_neq in Ez.
        intros [= <- <-]. simpl. five_parts.
        -- exact N1.
        -- exact P1.
        -- exact Hrest.
        -- intros H. exfalso. apply H. reflexivity.
        -- intros _. split; [exact Rng|]. split.
           ++ apply compose_fits; assumption.
           ++ rewrite Nx in *.
              unfold seq_ok, node_ok, key, maxNodeID, maxSequence,
                nodeIDBits, sequenceBits in *.
              cbn [lastTimestamp nodeID sequence gen]. intros Hs.
              rewrite <- Eeq.
              assert (sequence (gen w) + 1 < 2 ^ 12 \/
                      sequence (gen w) = 2 ^ 12 - 1) as [Lt | Eq] by lia.
              ** rewrite Z.mod_small by lia. lia.
              ** exfalso. apply Ez. rewrite Eq. reflexivity.
    + (* a later millisecond *)
      apply Z.eqb_neq in Eeq.
      intros [= <- <-]. simpl.
      assert (Z0 : 0 <= 0 <= maxSequence) by (unfold maxSequence, sequenceBits; lia).
      five_parts.
      * exact N1.
      * exact P1.
      * exact Hrest.
      * intros H. exfalso. apply H. reflexivity.
      * intros _. split; [exact Z0|]. split.
        -- apply compose_fits; assumption.
        -- unfold seq_ok, node_ok, key, maxNodeID, maxSequence,
             nodeIDBits, sequenceBits in *.
              cbn [lastTimestamp nodeID sequence gen]. intros Hs. lia.
Qed.

End Step.

(** From a state whose fields are in range, every identifier of a session
    is above the number the state stands for, and they increase. *)
Lemma session_above : forall k w,
  node_ok (gen w) -> seq_ok (gen w) ->
  provider_in_range (hosts w) -> clock_ok (clock w) ->
  Forall (fun id => key (gen w) < id) (issued (fst (session k w))) /\
  StronglySorted Z.lt (issued (fst (session k w))).
Proof.
  induction k as [|k IH]; intros w Hn Hs Hp Hc; simpl.
  - split; constructor.
  - destruct (NextID w) as [[[id e] w1]|] eqn:E; simpl; [|split; constructor].
    destruct (NextID_step w _ _ Hn Hp Hc E) as (N1 & P1 & C1 & Fail & Succ).
    simpl in Fail, Succ.
    destruct e as [e|].
    + destruct (Fail ltac:(discriminate)) as [Hk Hs1].
      destruct (IH w1 N1 (Hs1 Hs) P1 C1) as [Above Sorted1].
      destruct (session k w1) as [rs w2]. simpl in *.
      split; [|exact Sorted1].
      eapply Forall_impl; [|exact Above]. intros a Ha. simpl in Ha. lia.
    + destruct (Succ eq_refl) as (Hs1 & Hid & Hlt).
      destruct (IH w1 N1 Hs1 P1 C1) as [Above Sorted1].
      destruct (session k w1) as [rs w2]. simpl in *.
      specialize (Hlt Hs). subst id. split.
      * constructor; [exact Hlt|].
        eapply Forall_impl; [|exact Above]. intros a Ha. simpl in Ha. lia.
      * constructor; assumption.
Qed.

Lemma session_increasing : forall k w,
  node_ok (gen w) -> provider_in_range (hosts w) -> clock_ok (clock w) ->
  StronglySorted Z.lt (issued (fst (session k w))).
Proof.
  induction k as [|k IH]; intros w Hn Hp Hc; simpl.
  - constructor.
  - destruct (NextID w) as [[[id e] w1]|] eqn:E; simpl; [|constructor].
    destruct (NextID_step w _ _ Hn Hp Hc E) as (N1 & P1 & C1 & _ & Succ).
    simpl in Succ.
    destruct e as [e|].
    + specialize (IH w1 N1 P1 C1).
      destruct (session k w1) as [rs w2]. exact IH.
    + destruct (Succ eq_refl) as (Hs1 & Hid & _).
      destruct (session_above k w1 N1 Hs1 P1 C1) as [Above Sorted1].
      destruct (session k w1) as [rs w2]. simpl in *.
      subst id. constructor; assumption.
Qed.

Lemma increasing_NoDup (l : list Z) : StronglySorted Z.lt l -> NoDup l.
Proof.
  induction 1 as [|a l _ IH Ha]; constructor; [|exact IH].
  intros Hin. rewrite Forall_forall in Ha. specialize (Ha a Hin). lia.
Qed.

(** C1, as the code has it.  Take a generator whose node id is a 10-bit
    value, a provider whose answers are 10-bit values, and a clock that
    never goes back and whose timestamps fit the 41-bit field (with its
    sign).  Then over any number of calls in a row every identifier issued
    is greater than every identifier issued before it; so they are all
    different. *)
Theorem identifiers_increase (k : nat) (w : World) :
  0 <= nodeID (gen w) <= 1023 ->
  Forall (fun h => 0 <= fst (createNodeID h) <= 1023) (hosts w) ->
  Forall (fun now => - 2 ^ 41 <= timestamp now < 2 ^ 41) (clock w) ->
  Sorted Z.le (map timestamp (clock w)) ->
  StronglySorted Z.lt (issued (fst (session k w))) /\
  NoDup (issued (fst (session k w))).
Proof.
  intros Hn Hp Hf Hm.
  assert (S : StronglySorted Z.lt (issued (fst (session k w)))).
  { apply session_increasing.
    - exact Hn.
    - exact Hp.
    - apply clock_ok_intro; assumption. }
  split; [exact S | apply increasing_NoDup; exact S].
Qed.

(** ** Worked runs *)

(** C1, counterexample.  A generator constructed with node id 1 and a clock
    that goes from millisecond [2^41 - 1] to [2^41] without going back: the
    second identifier is negative and below the first, because [2^41 << 22]
    does not fit 64 bits. *)
Lemma identifiers_wrap_past_the_field :
  NewWithNodeID 1 = (Some (gen world_2084), None) /\
  map timestamp (clock world_2084) = [2 ^ 41 - 1; 2 ^ 41] /\
  Sorted Z.le (map timestamp (clock world_2084)) /\
  fst (session 2 world_2084) =
    [(9223372036850585600, None); (-9223372036854771712, None)] /\
  ~ StronglySorted Z.lt (issued (fst (session 2 world_2084))).
Proof.
  split; [reflexivity|]. split; [reflexivity|]. split.
  - repeat constructor. discriminate.
  - split; [vm_compute; reflexivity|].
    intros H. vm_compute in H.
    apply StronglySorted_inv in H as [_ H].
    inversion H as [|? ? Hlt _]. discriminate Hlt.
Qed.

Lemma identifiers_increase_witness :
  0 <= nodeID (gen world_lazy) <= 1023 /\
  Forall (fun h => 0 <= fst (createNodeID h) <= 1023) (hosts world_lazy) /\
  Forall (fun now => - 2 ^ 41 <= timestamp now < 2 ^ 41) (clock world_lazy) /\
  Sorted Z.le (map timestamp (clock world_lazy)) /\
  issued (fst (session 6 world_lazy)) =
    [21860352; 21860353; 21860354; 26054656; 26054657; 30248960] /\
  StronglySorted Z.lt (issued (fst (session 6 world_lazy))) /\
  NoDup (issued (fst (session 6 world_lazy))).
Proof.
  assert (H1 : 0 <= nodeID (gen world_lazy) <= 1023) by (simpl; lia).
  assert (H2 : Forall (fun h => 0 <= fst (createNodeID h) <= 1023)
                      (hosts world_lazy)).
  { repeat constructor; vm_compute; discriminate. }
  assert (H3 : Forall (fun now => - 2 ^ 41 <= timestamp now < 2 ^ 41)
                      (clock world_lazy)).
  { repeat constructor; vm_compute; try discriminate; reflexivity. }
  assert (H4 : Sorted Z.le (map timestamp (clock world_lazy))).
  { repeat constructor; vm_compute; discriminate. }
  split; [exact H1|]. split; [exact H2|]. split; [exact H3|]. split; [exact H4|].
  split; [vm_compute; reflexivity|].
  exact (identifiers_increase 6 world_lazy H1 H2 H3 H4).
Defined.

(** C6, counterexample.  With the sequence exhausted and a clock that does
    not go back: from millisecond [2^41 - 1] to [2^41] the identifier issued
    after the wait has timestamp field [-2^41], below the exhausted
    millisecond; from millisecond 5 to [5 + 2^42] it has timestamp field 5
    and is the identifier of sequence 0 in millisecond 5 once more. *)
Lemma wait_leaves_the_field :
  Sorted Z.le (map timestamp (clock world_rollover)) /\
  timestamp (reading (2 ^ 41 - 1)) = lastTimestamp (gen world_rollover) /\
  (sequence (gen world_rollover) + 1) mod 4096 = 0 /\
  NextID world_rollover =
    Some ((-9223372036854771712, None),
          mkWorld (mkGenerator 1 (2 ^ 41) 0) [] []) /\
  timestamp_field (-9223372036854771712) = - 2 ^ 41 /\
  ~ lastTimestamp (gen world_rollover)
    < timestamp_field (-9223372036854771712) /\
  Sorted Z.le (map timestamp (clock world_jump)) /\
  timestamp (reading 5) = lastTimestamp (gen world_jump) /\
  (sequence (gen world_jump) + 1) mod 4096 = 0 /\
  NextID world_jump =
    Some ((20975616, None), mkWorld (mkGenerator 1 (5 + 2 ^ 42) 0) [] []) /\
  timestamp_field 20975616 = lastTimestamp (gen world_jump) /\
  20975616 = compose 5 1 0 /\
  Int64.in_range (reading (2 ^ 41)) /\ Int64.in_range (reading (5 + 2 ^ 42)).
Proof.
  split; [repeat constructor; vm_compute; discriminate|].
  split; [vm_compute; reflexivity|]. split; [reflexivity|].
  split; [vm_compute; reflexivity|]. split; [reflexivity|].
  split; [vm_compute; intros H; discriminate H|].
  split; [repeat constructor; vm_compute; discriminate|].
  split; [vm_compute; reflexivity|]. split; [reflexivity|].
  split; [vm_compute; reflexivity|]. split; [reflexivity|].
  split; [reflexivity|].
  split; vm_compute; (split; [discriminate | reflexivity]).
Qed.

(** C8, counterexample.  A generator constructed with node id 1: with the
    clock one millisecond before the custom epoch the identifier issued is
    negative; and in millisecond [2^41] the identifier issued decomposes
    into timestamp [-2^41], not the [lastTimestamp] the generator holds. *)
Lemma issued_identifier_out_of_range :
  NewWithNodeID 1 = (Some (gen world_epoch), None) /\
  NextID world_epoch =
    Some ((-4190207, None), mkWorld (mkGenerator 1 (-1) 1) [reading (-2)] []) /\
  ~ 0 <= -4190207 /\
  NewWithNodeID 1 = (Some (gen world_2084), None) /\
  session 2 world_2084 =
    ([(9223372036850585600, None); (-9223372036854771712, None)],
     mkWorld (mkGenerator 1 (2 ^ 41) 0) [] []) /\
  decompose (-9223372036854771712) = (- 2 ^ 41, 1, 0) /\
  decompose (-9223372036854771712) <> (2 ^ 41, 1, 0) /\
  ~ 0 <= -9223372036854771712.
Proof.
  split; [reflexivity|]. split; [vm_compute; reflexivity|].
  split; [lia|]. split; [reflexivity|].
  split; [vm_compute; reflexivity|]. split; [reflexivity|].
  split; [vm_compute; intros H; discriminate H | lia].
Qed.

Lemma NextID_clock_regression_witness :
  lazyNodeID world_behind = Some (None, world_behind) /\
  clock world_behind = [reading 7] /\
  timestamp (reading 7) < lastTimestamp (gen world_behind) /\
  NextID world_behind =
    Some ((0, Some ErrInvalidState), mkWorld (mkGenerator 1 10 3) [] []) /\
  lastTimestamp (gen world_behind) = 10 /\ sequence (gen world_behind) = 3.
Proof.
  assert (H1 : lazyNodeID world_behind = Some (None, world_behind)) by reflexivity.
  assert (H2 : clock world_behind = [reading 7]) by reflexivity.
  assert (H3 : timestamp (reading 7) < lastTimestamp (gen world_behind))
    by (vm_compute; reflexivity).
  split; [exact H1|]. split; [exact H2|]. split; [exact H3|].
  destruct (NextID_clock_regression world_behind world_behind (reading 7) []
              H1 H2 H3) as (R & L & S).
  split; [exact R|]. split; reflexivity.
Defined.

Lemma NextID_resolution_failure_witness :
  nodeID (gen (mkWorld New [reading 5] [host_down; host_eth])) = 0 /\
  snd (createNodeID host_down) =
    Some (ErrNet "route ip+net: netlinkrib: too many open files") /\
  NextID (mkWorld New [reading 5] [host_down; host_eth]) =
    Some ((0, Some (ErrNet "route ip+net: netlinkrib: too many open files")),
          mkWorld New [reading 5] [host_eth]).
Proof.
  split; [reflexivity|]. split; [reflexivity|].
  exact (NextID_resolution_failure
           (mkWorld New [reading 5] [host_down; host_eth])
           host_down [host_eth] _ eq_refl eq_refl eq_refl).
Defined.

Lemma NextID_composition_witness :
  NextID world_lazy =
    Some ((21860352, None),
          mkWorld (mkGenerator 217 5 0) (map reading [5; 5; 6; 6; 7]) []) /\
  21860352 = Z.lor (Z.lor (Int64.shl 5 22) (Int64.shl 217 12)) 0.
Proof.
  assert (H : NextID world_lazy =
    Some ((21860352, None),
          mkWorld (mkGenerator 217 5 0) (map reading [5; 5; 6; 6; 7]) []))
    by (vm_compute; reflexivity).
  split; [exact H|].
  exact (proj1 (NextID_composition world_lazy _ 21860352 H)).
Defined.

Lemma field_round_trip_witness :
  0 <= 5 < 2 ^ 41 /\ 0 <= 217 <= 1023 /\ 0 <= 3 <= 4095 /\
  decompose (compose 5 217 3) = (5, 217, 3) /\
  0 <= compose 5 217 3 /\
  NextID world_lazy =
    Some ((21860352, None),
          mkWorld (mkGenerator 217 5 0) (map reading [5; 5; 6; 6; 7]) []) /\
  decompose 21860352 = (5, 217, 0) /\ 0 <= 21860352.
Proof.
  assert (H1 : 0 <= 5 < 2 ^ 41) by lia.
  assert (H2 : 0 <= 217 <= 1023) by lia.
  assert (H3 : 0 <= 3 <= 4095) by lia.
  assert (Run : NextID world_lazy =
    Some ((21860352, None),
          mkWorld (mkGenerator 217 5 0) (map reading [5; 5; 6; 6; 7]) []))
    by (vm_compute; reflexivity).
  split; [exact H1|]. split; [exact H2|]. split; [exact H3|].
  destruct (field_round_trip 5 217 3 H1 H2 H3) as (A & B & C).
  split; [exact A|]. split; [exact B|]. split; [exact Run|].
  exact (C world_lazy 21860352 _ Run eq_refl eq_refl).
Defined.

(** The 4097th call within one millisecond: it reads millisecond 5 twice
    more, then millisecond 6, and issues sequence 0 of millisecond 6. *)
Lemma NextID_same_millisecond_witness :
  snd (session 4096 world_burst) = world_exhausted /\
  lazyNodeID world_exhausted = Some (None, world_exhausted) /\
  clock world_exhausted = reading 5 :: [reading 5] ++ reading 6 :: [reading 7] /\
  timestamp (reading 5) = lastTimestamp (gen world_exhausted) /\
  (sequence (gen world_exhausted) + 1) mod 4096 = 0 /\
  NextID world_exhausted =
    Some ((compose 6 1 0, None), mkWorld (mkGenerator 1 6 0) [reading 7] []) /\
  sequence_field (compose 6 1 0) = 0 /\
  timestamp_field (compose 6 1 0) = 6 /\
  compose 6 1 0 <> compose 5 1 0 /\
  nth 4095 (issued (fst (session 4097 world_burst))) 0 = compose 5 1 4095 /\
  nth 4096 (issued (fst (session 4097 world_burst))) 0 = compose 6 1 0.
Proof.
  assert (H1 : lazyNodeID world_exhausted = Some (None, world_exhausted))
    by reflexivity.
  assert (H2 : clock world_exhausted =
               reading 5 :: [reading 5] ++ reading 6 :: [reading 7])
    by reflexivity.
  assert (H3 : timestamp (reading 5) = lastTimestamp (gen world_exhausted))
    by (vm_compute; reflexivity).
  assert (H4 : (sequence (gen world_exhausted) + 1) mod 4096 = 0)
    by reflexivity.
  split; [vm_compute; reflexivity|].
  split; [exact H1|]. split; [exact H2|]. split; [exact H3|]. split; [exact H4|].
  destruct (NextID_same_millisecond world_exhausted world_exhausted (reading 5)
              ([reading 5] ++ reading 6 :: [reading 7]) H1 H2 H3) as [_ Wrap].
  destruct (Wrap H4) as [_ Found].
  assert (P1 : Forall (fun x => timestamp x = lastTimestamp (gen world_exhausted))
                      [reading 5]).
  { constructor; [vm_compute; reflexivity | constructor]. }
  assert (P2 : timestamp (reading 6) <> lastTimestamp (gen world_exhausted)).
  { vm_compute. intros E. discriminate E. }
  destruct (Found [reading 5] (reading 6) [reading 7] eq_refl P1 P2)
    as (R & S & _ & T).
  assert (F6 : - 2 ^ 41 <= timestamp (reading 6) < 2 ^ 41)
    by (vm_compute; split; [discriminate | reflexivity]).
  assert (N1 : 0 <= nodeID (gen world_exhausted) <= 1023)
    by (vm_compute; split; discriminate).
  assert (F5 : - 2 ^ 41 <= lastTimestamp (gen world_exhausted) < 2 ^ 41)
    by (vm_compute; split; [discriminate | reflexivity]).
  destruct (T F6 N1) as (TF & _ & _ & Fresh).
  split; [exact R|]. split; [exact S|]. split; [exact TF|].
  split; [exact (Fresh F5)|].
  split; vm_compute; reflexivity.
Defined.

(** C3, the code at explicit node id 0.  [NewWithNodeID] accepts 0, which
    its error text names as a valid node id, and yields the generator [New]
    yields: [NextID] cannot tell it from "not resolved yet".  The first call
    asks the provider (the host answer is consumed) and the identifier
    carries the resolved node id 217, not 0. *)
Theorem explicit_zero_is_resolved :
  0 <= 0 <= 1023 /\
  NewWithNodeID 0 = (Some New, None) /\
  NextID (mkWorld New [reading 5] [host_eth]) =
    Some ((21860352, None), mkWorld (mkGenerator 217 5 0) [] []) /\
  hosts (mkWorld (mkGenerator 217 5 0) [] []) <> [host_eth] /\
  nodeID_field 21860352 = 217 /\
  nodeID_field 21860352 <> 0.
Proof.
  split; [lia|]. split; [reflexivity|]. split; [vm_compute; reflexivity|].
  split; [discriminate|]. split; [reflexivity|]. discriminate.
Qed.

Lemma explicit_nodeID_bypasses_provider_witness :
  1 <= 7 <= 1023 /\
  exists g,
    NewWithNodeID 7 = (Some g, None) /\
    hosts (snd (session 3 (mkWorld g (map reading [5; 5; 6]) [host_eth; host_bare])))
      = [host_eth; host_bare] /\
    nodeID (gen (snd (session 3 (mkWorld g (map reading [5; 5; 6])
                                          [host_eth; host_bare])))) = 7 /\
    Forall (fun id => nodeID_field id = 7)
           (issued (fst (session 3 (mkWorld g (map reading [5; 5; 6])
                                            [host_eth; host_bare])))).
Proof.
  assert (H : 1 <= 7 <= 1023) by lia.
  split; [exact H|].
  exact (explicit_nodeID_bypasses_provider
           7 3 (map reading [5; 5; 6]) [host_eth; host_bare] H).
Defined.

(** ** The fallback of the provider *)

(** C4, the code at a host without hardware addresses.  [createNodeID]
    returns what [rand.Int()] gave, here 5577006791947779410: a 63-bit
    value, not one in [0, 1023]. *)
Theorem createNodeID_fallback_is_unbounded :
  host_ok host_bare /\
  createNodeID host_bare = (5577006791947779410, None) /\
  ~ (0 <= fst (createNodeID host_bare) <= 1023) /\
  forall h,
    net_Interfaces h = ([], None) -> createNodeID h = (rand_Int h, None).
Proof.
  split; [unfold host_ok, Int64.half; simpl; lia|].
  split; [reflexivity|]. split.
  - simpl. lia.
  - intros h E. unfold createNodeID. rewrite E. reflexivity.
Qed.

(** C5, the code on a generator from [New] at that host.  The first call
    succeeds and leaves the generator with a node id above 1023; the next
    call, one millisecond later, issues the same identifier again. *)
Theorem lazy_resolution_breaks_node_range :
  node_ok New /\ seq_ok New /\
  session 2 (mkWorld New [reading 5; reading 6] [host_bare]) =
    ([(6350656565679562752, None); (6350656565679562752, None)],
     mkWorld (mkGenerator 5577006791947779410 6 0) [] []) /\
  ~ node_ok (mkGenerator 5577006791947779410 6 0).
Proof.
  split; [unfold node_ok, maxNodeID, nodeIDBits; simpl; lia|].
  split; [unfold seq_ok, maxSequence, sequenceBits; simpl; lia|].
  split; [vm_compute; reflexivity|].
  unfold node_ok, maxNodeID, nodeIDBits. simpl. lia.
Qed.

(** * The rest of the code *)

(** ** [timestamp] *)

(** X1.  On a reading that is an [int64], [timestamp] is the truncated quotient
    by [time.Millisecond] minus the custom epoch: the subtraction does not
    overflow, and the result is an [int64]. *)
Theorem timestamp_no_overflow (now : Z) :
  Int64.in_range now ->
  timestamp now = Z.quot now Millisecond - customEpoch /\
  Int64.in_range (timestamp now).
Proof.
  unfold Int64.in_range, Int64.half. intros H.
  assert (Lo : Z.quot (- 2 ^ 63) Millisecond <= Z.quot now Millisecond)
    by (apply Z.quot_le_mono; unfold Millisecond; lia).
  assert (Hi : Z.quot now Millisecond <= Z.quot (2 ^ 63) Millisecond)
    by (apply Z.quot_le_mono; unfold Millisecond; lia).
  change (Z.quot (- 2 ^ 63) Millisecond) with (-9223372036854) in Lo.
  change (Z.quot (2 ^ 63) Millisecond) with 9223372036854 in Hi.
  assert (R : Int64.in_range (Z.quot now Millisecond - customEpoch))
    by (unfold Int64.in_range, Int64.half, customEpoch; lia).
  unfold timestamp, Int64.sub. rewrite Int64Facts.wrap_id by exact R.
  split; [reflexivity | exact R].
Qed.

Lemma timestamp_no_overflow_witness :
  Int64.in_range 1420070400005999999 /\
  timestamp 1420070400005999999 = 5 /\
  Int64.in_range (timestamp 1420070400005999999).
Proof.
  assert (H : Int64.in_range 1420070400005999999)
    by (unfold Int64.in_range, Int64.half; lia).
  split; [exact H|].
  destruct (timestamp_no_overflow 1420070400005999999 H) as [E R].
  split; [rewrite E; reflexivity | exact R].
Defined.

(** X2.  A wall clock that does not go back gives timestamps that do not go
    back. *)
Theorem timestamp_monotone (a b : Z) :
  Int64.in_range a -> Int64.in_range b -> a <= b ->
  timestamp a <= timestamp b.
Proof.
  intros Ha Hb Hab.
  assert (Q : Z.quot a Millisecond <= Z.quot b Millisecond)
    by (apply Z.quot_le_mono; unfold Millisecond; lia).
  assert (Lo : Z.quot (- 2 ^ 63) Millisecond <= Z.quot a Millisecond)
    by (apply Z.quot_le_mono; unfold Int64.in_range, Int64.half, Millisecond in *; lia).
  assert (Hi : Z.quot b Millisecond <= Z.quot (2 ^ 63) Millisecond)
    by (apply Z.quot_le_mono; unfold Int64.in_range, Int64.half, Millisecond in *; lia).
  change (Z.quot (- 2 ^ 63) Millisecond) with (-9223372036854) in Lo.
  change (Z.quot (2 ^ 63) Millisecond) with 9223372036854 in Hi.
  unfold timestamp, Int64.sub.
  rewrite !Int64Facts.wrap_id
    by (unfold Int64.in_range, Int64.half, customEpoch; lia).
  lia.
Qed.

Lemma timestamp_monotone_witness :
  Int64.in_range (reading 5) /\ Int64.in_range (reading 6) /\
  reading 5 <= reading 6 /\ timestamp (reading 5) <= timestamp (reading 6).
Proof.
  assert (H1 : Int64.in_range (reading 5))
    by (vm_compute; split; [discriminate | reflexivity]).
  assert (H2 : Int64.in_range (reading 6))
    by (vm_compute; split; [discriminate | reflexivity]).
  assert (H3 : reading 5 <= reading 6) by (vm_compute; discriminate).
  split; [exact H1|]. split; [exact H2|]. split; [exact H3|].
  exact (timestamp_monotone (reading 5) (reading 6) H1 H2 H3).
Defined.

(** ** [createNodeID] *)

Lemma length_append (s1 s2 : string) :
  String.length (s1 ++ s2) = (String.length s1 + String.length s2)%nat.
Proof. induction s1 as [|c s1 IH]; simpl; [reflexivity | now rewrite IH]. Qed.

Lemma append_empty_r (s : string) : (s ++ "")%string = s.
Proof. induction s as [|c s IH]; simpl; [reflexivity | now rewrite IH]. Qed.

Lemma append_assoc (s1 s2 s3 : string) :
  ((s1 ++ s2) ++ s3)%string = (s1 ++ (s2 ++ s3))%string.
Proof. induction s1 as [|c s1 IH]; simpl; [reflexivity | now rewrite IH]. Qed.

(** Joining with the empty separator is plain concatenation. *)
Lemma concat_cons (x : string) (xs : list string) :
  String.concat "" (x :: xs) = (x ++ String.concat "" xs)%string.
Proof.
  destruct xs as [|y ys]; simpl.
  - symmetry. apply append_empty_r.
  - reflexivity.
Qed.

Lemma concat_app (l1 l2 : list string) :
  String.concat "" (l1 ++ l2) =
  (String.concat "" l1 ++ String.concat "" l2)%string.
Proof.
  induction l1 as [|x l1 IH].
  - reflexivity.
  - rewrite <- app_comm_cons, !concat_cons, IH. symmetry. apply append_assoc.
Qed.

(** The builder holds the hex digits of the address bytes, whatever
    interfaces they came from. *)
Lemma builder_content (ifaces : list Interface) :
  String.concat ""
    (map (fun i => String.concat "" (map sprintf_02X (HardwareAddr i))) ifaces)
  = hex_of (address_bytes ifaces).
Proof.
  unfold hex_of, address_bytes. induction ifaces as [|i ifaces IH].
  - reflexivity.
  - simpl map. rewrite concat_cons, IH. simpl List.concat.
    rewrite map_app, concat_app. reflexivity.
Qed.

Lemma hex_of_length (bs : list byte) :
  String.length (hex_of bs) = (2 * List.length bs)%nat.
Proof.
  unfold hex_of. induction bs as [|b bs IH].
  - reflexivity.
  - simpl map. rewrite concat_cons, length_append, IH.
    unfold sprintf_02X. simpl. lia.
Qed.

(** [createNodeID] in terms of the address bytes. *)
Lemma createNodeID_eq (h : Host) :
  createNodeID h =
  match snd (net_Interfaces h) with
  | Some e => (0, Some e)
  | None =>
      match address_bytes (fst (net_Interfaces h)) with
      | [] => (rand_Int h, None)
      | bs => (Z.land (fnv32a (bytes_of_string (hex_of bs))) maxNodeID, None)
      end
  end.
Proof.
  unfold createNodeID. destruct (net_Interfaces h) as [ifaces [e|]]; simpl.
  - reflexivity.
  - rewrite builder_content.
    destruct (address_bytes ifaces) as [|b bs] eqn:E.
    + reflexivity.
    + destruct (String.length (hex_of (b :: bs)) =? 0)%nat eqn:L.
      * apply Nat.eqb_eq in L. rewrite hex_of_length in L. simpl in L. lia.
      * reflexivity.
Qed.

(** X3.  [createNodeID] fails exactly when [net.Interfaces()] fails: it returns
    that error, with node id 0, and no other error. *)
Theorem createNodeID_error (h : Host) :
  snd (createNodeID h) = snd (net_Interfaces h) /\
  (snd (net_Interfaces h) <> None -> fst (createNodeID h) = 0).
Proof.
  rewrite createNodeID_eq.
  destruct (snd (net_Interfaces h)) as [e|].
  - split; [reflexivity | reflexivity].
  - destruct (address_bytes (fst (net_Interfaces h)));
      (split; [reflexivity | intros H; exfalso; apply H; reflexivity]).
Qed.

(** X4.  With at least one hardware address byte on the host, the node id is a
    value in [0, 1023], and it is determined by the sequence of address
    bytes alone: not by the random source, and not by how the bytes are
    spread over the interfaces. *)
Theorem createNodeID_hashed (h h' : Host) :
  snd (net_Interfaces h) = None ->
  address_bytes (fst (net_Interfaces h)) <> [] ->
  snd (createNodeID h) = None /\
  0 <= fst (createNodeID h) <= 1023 /\
  (snd (net_Interfaces h') = None ->
   address_bytes (fst (net_Interfaces h')) = address_bytes (fst (net_Interfaces h)) ->
   createNodeID h' = createNodeID h).
Proof.
  intros He Hb. rewrite !createNodeID_eq, He.
  destruct (address_bytes (fst (net_Interfaces h))) as [|b bs] eqn:E;
    [congruence|].
  split; [reflexivity|]. split.
  - simpl fst. unfold maxNodeID, nodeIDBits.
    change (2 ^ 10 - 1) with (Z.ones 10). rewrite Z.land_ones by lia.
    assert (B := Z.mod_pos_bound (fnv32a (bytes_of_string (hex_of (b :: bs))))
                                 (2 ^ 10) ltac:(lia)).
    lia.
  - intros He' Hb'. rewrite He', Hb'. reflexivity.
Qed.

Lemma createNodeID_hashed_witness :
  snd (net_Interfaces host_eth) = None /\
  address_bytes (fst (net_Interfaces host_eth)) <> [] /\
  snd (createNodeID host_eth) = None /\
  0 <= fst (createNodeID host_eth) <= 1023 /\
  createNodeID host_split = createNodeID host_eth /\
  createNodeID host_eth = (217, None).
Proof.
  assert (H1 : snd (net_Interfaces host_eth) = None) by reflexivity.
  assert (H2 : address_bytes (fst (net_Interfaces host_eth)) <> [])
    by (vm_compute; discriminate).
  split; [exact H1|]. split; [exact H2|].
  destruct (createNodeID_hashed host_eth host_split H1 H2) as (A & B & C).
  split; [exact A|]. split; [exact B|]. split.
  - apply C; reflexivity.
  - reflexivity.
Defined.

(** X5.  Interfaces without a hardware address do not count: when no interface
    carries an address byte, the node id is whatever [rand.Int()] gave,
    unchanged. *)
Theorem createNodeID_fallback (h : Host) :
  snd (net_Interfaces h) = None ->
  address_bytes (fst (net_Interfaces h)) = [] ->
  createNodeID h = (rand_Int h, None).
Proof.
  intros He Hb. rewrite createNodeID_eq, He, Hb. reflexivity.
Qed.

Lemma createNodeID_fallback_witness :
  snd (net_Interfaces host_loopback) = None /\
  address_bytes (fst (net_Interfaces host_loopback)) = [] /\
  createNodeID host_loopback = (3000, None).
Proof.
  split; [reflexivity|]. split; [reflexivity|].
  exact (createNodeID_fallback host_loopback eq_refl eq_refl).
Defined.

(** ** [blockWaitToNextMillisecond] *)

(** Started in the exhausted millisecond, the loop returns the first
    reading that left it, after readings that had not. *)
Lemma spin_sound_full readings : forall last t' rest',
  spin last last readings = Some (t', rest') ->
  exists pre later,
    readings = pre ++ later :: rest' /\
    Forall (fun x => timestamp x = last) pre /\
    timestamp later = t' /\ t' <> last.
Proof.
  induction readings as [|x xs IH]; intros last t' rest'; simpl;
    rewrite Z.eqb_refl; [discriminate|].
  destruct xs as [|y ys].
  - simpl. destruct (last =? timestamp x) eqn:E; [discriminate|].
    intros [= <- <-]. apply Z.eqb_neq in E.
    exists [], x. repeat split; [constructor | congruence].
  - destruct (Z.eq_dec (timestamp x) last) as [Eq | Ne].
    + rewrite Eq. intros H. apply IH in H as (pre & later & -> & Hpre & Hl & Hne).
      exists (x :: pre), later. repeat split; try assumption.
      constructor; assumption.
    + simpl. destruct (last =? timestamp x) eqn:E;
        [apply Z.eqb_eq in E; congruence|].
      intros [= <- <-].
      exists [], x. repeat split; [constructor | assumption].
Qed.

(** X6.  Whenever [blockWaitToNextMillisecond] returns, its result differs from
    [lastTimestamp], the generator and the host are untouched, and the
    clock readings it consumed are a prefix: none if it was called with a
    timestamp other than [lastTimestamp]; otherwise readings equal to
    [lastTimestamp] followed by the one it returns. *)
Theorem blockWaitToNextMillisecond_post (cur t : Z) (w w' : World) :
  blockWaitToNextMillisecond cur w = Some (t, w') ->
  t <> lastTimestamp (gen w) /\ gen w' = gen w /\ hosts w' = hosts w /\
  (cur <> lastTimestamp (gen w) -> t = cur /\ clock w' = clock w) /\
  (cur = lastTimestamp (gen w) ->
   exists pre later,
     clock w = pre ++ later :: clock w' /\
     Forall (fun x => timestamp x = lastTimestamp (gen w)) pre /\
     timestamp later = t).
Proof.
  unfold blockWaitToNextMillisecond.
  destruct (spin (lastTimestamp (gen w)) cur (clock w)) as [[t0 rest]|] eqn:E;
    [|discriminate].
  intros [= <- <-]. simpl.
  destruct (Z.eq_dec cur (lastTimestamp (gen w))) as [Eq | Ne].
  - subst cur. apply spin_sound_full in E as (pre & later & Hc & Hpre & Hl & Hne).
    split; [exact Hne|]. split; [reflexivity|]. split; [reflexivity|]. split.
    + intros H. exfalso. apply H. reflexivity.
    + intros _. exists pre, later. auto.
  - assert (S : spin (lastTimestamp (gen w)) cur (clock w) = Some (cur, clock w)).
    { destruct (clock w); simpl;
        (destruct (lastTimestamp (gen w) =? cur) eqn:B;
         [apply Z.eqb_eq in B; congruence | reflexivity]). }
    rewrite S in E. injection E as <- <-.
    split; [exact Ne|]. split; [reflexivity|]. split; [reflexivity|]. split.
    + intros _. split; reflexivity.
    + intros H. congruence.
Qed.

Lemma blockWaitToNextMillisecond_post_witness :
  blockWaitToNextMillisecond 5
    (mkWorld (mkGenerator 1 5 0) (map reading [5; 5; 6; 7]) [])
  = Some (6, mkWorld (mkGenerator 1 5 0) (map reading [7]) []) /\
  6 <> 5 /\
  exists pre later,
    map reading [5; 5; 6; 7] = pre ++ later :: map reading [7] /\
    Forall (fun x => timestamp x = 5) pre /\
    timestamp later = 6.
Proof.
  assert (H : blockWaitToNextMillisecond 5
                (mkWorld (mkGenerator 1 5 0) (map reading [5; 5; 6; 7]) [])
              = Some (6, mkWorld (mkGenerator 1 5 0) (map reading [7]) []))
    by (vm_compute; reflexivity).
  split; [exact H|].
  destruct (blockWaitToNextMillisecond_post 5 6 _ _ H) as (A & _ & _ & _ & B).
  split; [exact A|]. exact (B eq_refl).
Defined.

(** ** The paths of [NextID] *)

Lemma issue_issues w1 r w' : issue w1 = Some (r, w') <-> issues w1 r w'.
Proof.
  rewrite issue_eq. split.
  - destruct (clock w1) as [|now rest] eqn:Ec; [discriminate|]. cbv zeta.
    rewrite next_sequence. change (2 ^ sequenceBits) with 4096.
    destruct (timestamp now <? lastTimestamp (gen w1)) eqn:Elt.
    { apply Z.ltb_lt in Elt. intros [= <- <-].
      eapply issues_regress; eassumption. }
    apply Z.ltb_ge in Elt.
    destruct (timestamp now =? lastTimestamp (gen w1)) eqn:Eeq.
    + apply Z.eqb_eq in Eeq.
      destruct ((sequence (gen w1) + 1) mod 4096 =? 0) eqn:Ez.
      * apply Z.eqb_eq in Ez. rewrite Eeq.
        destruct (spin _ _ rest) as [[t' rest']|] eqn:Esp; [|discriminate].
        apply spin_sound_full in Esp as (pre & later & -> & Hpre & <- & Hne).
        intros [= <- <-]. rewrite Ez.
        eapply issues_wait; eassumption.
      * apply Z.eqb_neq in Ez. intros [= <- <-]. rewrite Eeq.
        eapply issues_next; try eassumption. reflexivity.
    + apply Z.eqb_neq in Eeq. intros [= <- <-].
      eapply issues_advance; [eassumption | lia].
  - intros H. destruct H as [now rest Hc Ht | now rest s Hc Ht Hs Hs0
                            | now pre later rest' Hc Ht Hs Hpre Hl
                            | now rest Hc Ht];
      rewrite Hc; cbv zeta; rewrite next_sequence;
      change (2 ^ sequenceBits) with 4096.
    + apply Z.ltb_lt in Ht. rewrite Ht. reflexivity.
    + rewrite Ht, Z.ltb_irrefl, Z.eqb_refl, <- Hs.
      apply Z.eqb_neq in Hs0. rewrite Hs0. reflexivity.
    + rewrite Ht, Z.ltb_irrefl, Z.eqb_refl, Hs. simpl Z.eqb.
      rewrite spin_finds by assumption. reflexivity.
    + assert (L : (timestamp now <? lastTimestamp (gen w1)) = false)
        by (apply Z.ltb_ge; lia).
      assert (E : (timestamp now =? lastTimestamp (gen w1)) = false)
        by (apply Z.eqb_neq; lia).
      rewrite L, E. reflexivity.
Qed.

(** A call that returned either failed to resolve the node id, or got past
    that block and took one of the four paths. *)
Lemma NextID_inv w r w' :
  NextID w = Some (r, w') ->
  (exists e, lazyNodeID w = Some (Some e, w') /\ r = (0, Some e)) \/
  (exists w1, lazyNodeID w = Some (None, w1) /\ issues w1 r w').
Proof.
  rewrite NextID_split.
  destruct (lazyNodeID w) as [[[e|] w1]|]; [| |discriminate].
  - intros [= <- <-]. left. exists e. auto.
  - intros H. right. exists w1. split; [reflexivity|]. apply issue_issues. exact H.
Qed.

(** What the resolution block can have done. *)
Lemma lazyNodeID_inv w o w1 :
  lazyNodeID w = Some (o, w1) ->
  (nodeID (gen w) <> 0 /\ o = None /\ w1 = w) \/
  (nodeID (gen w) = 0 /\
   exists h hs,
     hosts w = h :: hs /\ o = snd (createNodeID h) /\
     clock w1 = clock w /\ hosts w1 = hs /\
     lastTimestamp (gen w1) = lastTimestamp (gen w) /\
     sequence (gen w1) = sequence (gen w) /\
     nodeID (gen w1) =
       match o with None => fst (createNodeID h) | Some _ => 0 end).
Proof.
  rewrite lazyNodeID_eq.
  destruct (nodeID (gen w) =? 0) eqn:E.
  - apply Z.eqb_eq in E. destruct (hosts w) as [|h hs]; [discriminate|].
    destruct (snd (createNodeID h)) as [e|] eqn:Es; intros [= <- <-];
      right; (split; [exact E|]); exists h, hs; simpl;
      repeat split; auto.
  - apply Z.eqb_neq in E. intros [= <- <-]. left. auto.
Qed.

(** X7.  A call that samples a timestamp above [lastTimestamp] reads the clock
    once, resets [sequence] to 0, records the timestamp and issues the
    identifier packed from it with sequence 0. *)
Theorem NextID_new_millisecond (w w1 : World) (now : Z) (rest : list Z) :
  lazyNodeID w = Some (None, w1) ->
  clock w1 = now :: rest ->
  lastTimestamp (gen w1) < timestamp now ->
  NextID w =
  Some ((compose (timestamp now) (nodeID (gen w1)) 0, None),
        mkWorld (mkGenerator (nodeID (gen w1)) (timestamp now) 0)
                rest (hosts w1)).
Proof.
  intros Hl Hc Ht. rewrite NextID_split, Hl.
  apply issue_issues. eapply issues_advance; eassumption.
Qed.

Lemma NextID_new_millisecond_witness :
  lazyNodeID world_ahead = Some (None, world_ahead) /\
  clock world_ahead = reading 5 :: [reading 6] /\
  lastTimestamp (gen world_ahead) < timestamp (reading 5) /\
  NextID world_ahead =
    Some ((compose 5 1 0, None), mkWorld (mkGenerator 1 5 0) [reading 6] []).
Proof.
  split; [reflexivity|]. split; [reflexivity|].
  assert (H : lastTimestamp (gen world_ahead) < timestamp (reading 5))
    by (vm_compute; reflexivity).
  split; [exact H|].
  exact (NextID_new_millisecond world_ahead world_ahead
           (reading 5) [reading 6] eq_refl eq_refl H).
Defined.

(** X8.  A call that returns an error returns identifier 0 and leaves
    [lastTimestamp] and [sequence] as they were; the error is
    [ErrInvalidState] or the one the provider returned to this call. *)
Theorem NextID_error_keeps_state (w w' : World) (id : Z) (e : error) :
  NextID w = Some ((id, Some e), w') ->
  id = 0 /\
  lastTimestamp (gen w') = lastTimestamp (gen w) /\
  sequence (gen w') = sequence (gen w) /\
  (e = ErrInvalidState \/
   nodeID (gen w) = 0 /\
   exists h hs, hosts w = h :: hs /\ snd (createNodeID h) = Some e /\
                gen w' = gen w /\ clock w' = clock w).
Proof.
  intros H. apply NextID_inv in H as [(e' & Hl & [= -> <-]) | (w1 & Hl & Hi)].
  - apply lazyNodeID_inv in Hl as [(_ & [=] & _) | (H0 & h & hs & Hh & Ho & Hc & _ & L & S & N)].
    split; [reflexivity|]. split; [exact L|]. split; [exact S|].
    right. split; [exact H0|]. exists h, hs.
    split; [exact Hh|]. split; [symmetry; exact Ho|]. split; [|exact Hc].
    destruct (gen w'), (gen w). simpl in *. congruence.
  - assert (K : lastTimestamp (gen w1) = lastTimestamp (gen w) /\
                sequence (gen w1) = sequence (gen w)).
    { apply lazyNodeID_inv in Hl as [(_ & _ & ->) | (_ & h & hs & _ & _ & _ & _ & L & S & _)];
        auto. }
    destruct K as [L S].
    inversion Hi; subst. simpl.
    split; [reflexivity|]. split; [exact L|]. split; [exact S|]. left. reflexivity.
Qed.

Lemma NextID_error_keeps_state_witness :
  NextID world_behind =
    Some ((0, Some ErrInvalidState), mkWorld (mkGenerator 1 10 3) [] []) /\
  lastTimestamp (gen world_behind) = 10 /\ sequence (gen world_behind) = 3.
Proof.
  assert (H : NextID world_behind =
    Some ((0, Some ErrInvalidState), mkWorld (mkGenerator 1 10 3) [] []))
    by (vm_compute; reflexivity).
  split; [exact H|].
  destruct (NextID_error_keeps_state world_behind _ 0 ErrInvalidState H)
    as (_ & L & S & _).
  split; [symmetry; exact L | symmetry; exact S].
Defined.

(** X9.  The provider is called exactly by the calls that find node id 0: such
    a call takes one answer, and keeps node id 0 when that answer is an
    error or is 0 itself, so that the next call asks again; a call that
    finds another node id takes no answer and keeps the node id. *)
Theorem NextID_provider_calls (w w' : World) (r : Z * option error) :
  NextID w = Some (r, w') ->
  (nodeID (gen w) <> 0 ->
   hosts w' = hosts w /\ nodeID (gen w') = nodeID (gen w)) /\
  (nodeID (gen w) = 0 ->
   exists h, hosts w = h :: hosts w' /\
     nodeID (gen w') =
       match snd (createNodeID h) with
       | None => fst (createNodeID h)
       | Some _ => 0
       end).
Proof.
  intros H.
  assert (Keep : forall w1, issues w1 r w' ->
                 hosts w' = hosts w1 /\ nodeID (gen w') = nodeID (gen w1)).
  { intros w1 Hi. inversion Hi; subst; simpl; auto. }
  apply NextID_inv in H as [(e & Hl & ->) | (w1 & Hl & Hi)].
  - apply lazyNodeID_inv in Hl as [(_ & [=] & _) | (H0 & h & hs & Hh & Ho & _ & Hs & _ & _ & N)].
    split; [intros C; contradiction|].
    intros _. exists h. rewrite Hs, <- Ho. auto.
  - apply Keep in Hi as [Hh Hn].
    apply lazyNodeID_inv in Hl as [(Hne & _ & ->) | (H0 & h & hs & Hhs & Ho & _ & Hs & _ & _ & N)].
    + split; [auto | intros C; contradiction].
    + split; [intros C; contradiction|].
      intros _. exists h. rewrite Hh, Hs, Hn, N, <- Ho. auto.
Qed.

Lemma NextID_provider_calls_witness :
  fst (session 4 world_retry) =
    [(0, Some (ErrNet "route ip+net: netlinkrib: too many open files"));
     (compose 5 0 0, None); (compose 5 0 1, None); (compose 6 217 0, None)] /\
  hosts (snd (session 3 world_retry)) = [host_eth] /\
  nodeID (gen (snd (session 3 world_retry))) = 0 /\
  hosts (snd (session 4 world_retry)) = [] /\
  nodeID (gen (snd (session 4 world_retry))) = 217.
Proof.
  assert (H : NextID (snd (session 3 world_retry)) =
              Some ((compose 6 217 0, None), snd (session 4 world_retry)))
    by (vm_compute; reflexivity).
  destruct (NextID_provider_calls _ _ _ H) as [_ Ask].
  split; [vm_compute; reflexivity|].
  split; [vm_compute; reflexivity|].
  assert (Z0 : nodeID (gen (snd (session 3 world_retry))) = 0)
    by (vm_compute; reflexivity).
  split; [exact Z0|].
  destruct (Ask Z0) as (h & Hh & Hn).
  split; vm_compute; reflexivity.
Defined.

(** ** What the calls keep *)

Lemma NextID_ranges w r w' :
  NextID w = Some (r, w') ->
  (seq_ok (gen w) -> seq_ok (gen w')) /\
  (node_ok (gen w) -> provider_in_range (hosts w) ->
   node_ok (gen w') /\ provider_in_range (hosts w')).
Proof.
  intros H.
  assert (Lazy : forall o w1, lazyNodeID w = Some (o, w1) ->
            (seq_ok (gen w) -> seq_ok (gen w1)) /\
            (node_ok (gen w) -> provider_in_range (hosts w) ->
             node_ok (gen w1) /\ provider_in_range (hosts w1))).
  { intros o w1 Hl. split.
    - apply lazyNodeID_inv in Hl
        as [(_ & _ & ->) | (_ & h & hs & _ & _ & _ & _ & _ & S & _)]; [auto|].
      unfold seq_ok. rewrite S. auto.
    - intros Hn Hp. destruct (lazyNodeID_step _ _ _ Hn Hp Hl) as (A & B & _).
      auto. }
  assert (Issue : forall w1, issues w1 r w' ->
            (seq_ok (gen w1) -> seq_ok (gen w')) /\
            (node_ok (gen w1) -> node_ok (gen w')) /\ hosts w' = hosts w1).
  { intros w1 Hi. unfold seq_ok, node_ok, maxSequence, sequenceBits.
    inversion Hi; subst; simpl; repeat split; auto; try lia.
    - apply Z.mod_pos_bound. lia.
    - assert (B := Z.mod_pos_bound (sequence (gen w1) + 1) 4096 ltac:(lia)). lia. }
  apply NextID_inv in H as [(e & Hl & _) | (w1 & Hl & Hi)].
  - apply (Lazy _ _ Hl).
  - destruct (Lazy _ _ Hl) as [S N]. destruct (Issue _ Hi) as (S' & N' & Hh).
    split; [auto|]. intros Hn Hp. destruct (N Hn Hp) as [A B].
    split; [auto | rewrite Hh; exact B].
Qed.

(** X10.  Over any number of calls, a sequence in [0, 4095] stays in [0, 4095];
    and a node id in [0, 1023] stays in [0, 1023] as long as the answers
    the provider gives are in that range. *)
Theorem session_keeps_ranges (k : nat) (w : World) :
  0 <= sequence (gen w) <= 4095 ->
  0 <= nodeID (gen w) <= 1023 ->
  Forall (fun h => 0 <= fst (createNodeID h) <= 1023) (hosts w) ->
  0 <= sequence (gen (snd (session k w))) <= 4095 /\
  0 <= nodeID (gen (snd (session k w))) <= 1023.
Proof.
  intros Hs Hn Hp.
  assert (G : seq_ok (gen (snd (session k w))) /\
              node_ok (gen (snd (session k w))) /\
              provider_in_range (hosts (snd (session k w)))).
  { change (seq_ok (gen w)) in Hs. change (node_ok (gen w)) in Hn.
    change (provider_in_range (hosts w)) in Hp.
    revert w Hs Hn Hp. induction k as [|k IH]; intros w Hs Hn Hp; simpl.
    - auto.
    - destruct (NextID w) as [[r w1]|] eqn:E; simpl; [|auto].
      destruct (NextID_ranges _ _ _ E) as [S N].
      destruct (N Hn Hp) as [N1 P1].
      specialize (IH w1 (S Hs) N1 P1).
      destruct (session k w1) as [rs w2]. exact IH. }
  destruct G as (A & B & _). split; [exact A | exact B].
Qed.

Lemma session_keeps_ranges_witness :
  0 <= sequence (gen world_lazy) <= 4095 /\
  0 <= nodeID (gen world_lazy) <= 1023 /\
  Forall (fun h => 0 <= fst (createNodeID h) <= 1023) (hosts world_lazy) /\
  gen (snd (session 6 world_lazy)) = mkGenerator 217 7 0 /\
  0 <= sequence (gen (snd (session 6 world_lazy))) <= 4095 /\
  0 <= nodeID (gen (snd (session 6 world_lazy))) <= 1023.
Proof.
  assert (H1 : 0 <= sequence (gen world_lazy) <= 4095) by (simpl; lia).
  assert (H2 : 0 <= nodeID (gen world_lazy) <= 1023) by (simpl; lia).
  assert (H3 : Forall (fun h => 0 <= fst (createNodeID h) <= 1023)
                      (hosts world_lazy)).
  { repeat constructor; vm_compute; discriminate. }
  split; [exact H1|]. split; [exact H2|]. split; [exact H3|].
  split; [vm_compute; reflexivity|].
  exact (session_keeps_ranges 6 world_lazy H1 H2 H3).
Defined.

Lemma sorted_app_r (l1 l2 : list Z) :
  StronglySorted Z.le (l1 ++ l2) -> StronglySorted Z.le l2.
Proof.
  induction l1 as [|x l1 IH]; simpl; intros H; [exact H|].
  apply IH. apply StronglySorted_inv in H. apply H.
Qed.

Lemma NextID_last_step w r w' :
  StronglySorted Z.le (map timestamp (clock w)) ->
  NextID w = Some (r, w') ->
  lastTimestamp (gen w) <= lastTimestamp (gen w') /\
  StronglySorted Z.le (map timestamp (clock w')).
Proof.
  intros Hs H.
  apply NextID_inv in H as [(e & Hl & _) | (w1 & Hl & Hi)].
  - apply lazyNodeID_inv in Hl
      as [(_ & _ & ->) | (_ & h & hs & _ & _ & C & _ & L & _)].
    + split; [lia | exact Hs].
    + rewrite L, C. split; [lia | exact Hs].
  - assert (K : lastTimestamp (gen w1) = lastTimestamp (gen w) /\
                clock w1 = clock w).
    { apply lazyNodeID_inv in Hl
        as [(_ & _ & ->) | (_ & h & hs & _ & _ & C & _ & L & _)]; auto. }
    destruct K as [L C]. rewrite <- L, <- C in *. clear L C Hl.
    inversion Hi as [now rest Hc Ht | now rest s Hc Ht Es Hs0
                    | now pre later rest' Hc Ht Es Hpre Hl
                    | now rest Hc Ht]; subst; simpl;
      rewrite Hc in Hs; simpl in Hs;
      apply StronglySorted_inv in Hs as [Hs Hd].
    + split; [lia | exact Hs].
    + split; [lia | exact Hs].
    + rewrite map_app in Hs, Hd. simpl in Hs, Hd. split.
      * apply Forall_app in Hd as [_ Hd]. inversion Hd; subst. lia.
      * apply sorted_app_r in Hs. apply StronglySorted_inv in Hs. apply Hs.
    + split; [lia | exact Hs].
Qed.

(** X11.  With a clock that never goes back, [lastTimestamp] never goes back,
    whatever the calls return. *)
Theorem lastTimestamp_never_decreases (k : nat) (w : World) :
  Sorted Z.le (map timestamp (clock w)) ->
  lastTimestamp (gen w) <= lastTimestamp (gen (snd (session k w))).
Proof.
  intros Hs.
  assert (S : StronglySorted Z.le (map timestamp (clock w))).
  { apply Sorted_StronglySorted; [|exact Hs]. intros x y z. apply Z.le_trans. }
  clear Hs. revert w S. induction k as [|k IH]; intros w S; simpl.
  - lia.
  - destruct (NextID w) as [[r w1]|] eqn:E; simpl; [|lia].
    destruct (NextID_last_step _ _ _ S E) as [L S1].
    specialize (IH w1 S1). destruct (session k w1) as [rs w2]. simpl in *. lia.
Qed.

Lemma lastTimestamp_never_decreases_witness :
  Sorted Z.le (map timestamp (clock world_lazy)) /\
  lastTimestamp (gen world_lazy) = -1 /\
  lastTimestamp (gen (snd (session 6 world_lazy))) = 7 /\
  lastTimestamp (gen world_lazy)
    <= lastTimestamp (gen (snd (session 6 world_lazy))).
Proof.
  assert (H : Sorted Z.le (map timestamp (clock world_lazy))).
  { repeat constructor; vm_compute; discriminate. }
  split; [exact H|]. split; [reflexivity|]. split; [vm_compute; reflexivity|].
  exact (lastTimestamp_never_decreases 6 world_lazy H).
Defined.

(** ** The clock going back during a wait *)

(** X12.  [ErrInvalidState] guards the first reading of a call only.  When the
    sequence is exhausted and the next reading is below [lastTimestamp],
    the wait ends on it: the call succeeds, [lastTimestamp] goes back to
    that reading, and (with fields in range) the identifier issued is
    below the one packed from the state before the call. *)
Theorem NextID_wait_accepts_regression
        (w w1 : World) (now later : Z) (rest : list Z) :
  lazyNodeID w = Some (None, w1) ->
  clock w1 = now :: later :: rest ->
  timestamp now = lastTimestamp (gen w1) ->
  (sequence (gen w1) + 1) mod 4096 = 0 ->
  timestamp later < lastTimestamp (gen w1) ->
  NextID w =
    Some ((compose (timestamp later) (nodeID (gen w1)) 0, None),
          mkWorld (mkGenerator (nodeID (gen w1)) (timestamp later) 0)
                  rest (hosts w1)) /\
  (0 <= nodeID (gen w1) <= 1023 -> 0 <= sequence (gen w1) <= 4095 ->
   fits_field (lastTimestamp (gen w1)) -> fits_field (timestamp later) ->
   compose (timestamp later) (nodeID (gen w1)) 0
   < compose (lastTimestamp (gen w1)) (nodeID (gen w1)) (sequence (gen w1))).
Proof.
  intros Hl Hc Ht Hs Hlt. split.
  - rewrite NextID_split, Hl. apply issue_issues.
    apply (issues_wait w1 now [] later rest); try assumption.
    + constructor.
    + lia.
  - intros Hn Hq Fl Ft.
    rewrite !compose_fits; try assumption;
      unfold maxNodeID, maxSequence, nodeIDBits, sequenceBits; try lia.
Qed.

Lemma NextID_wait_accepts_regression_witness :
  lazyNodeID world_backstep = Some (None, world_backstep) /\
  clock world_backstep = reading 9 :: reading 4 :: [reading 10] /\
  timestamp (reading 9) = lastTimestamp (gen world_backstep) /\
  (sequence (gen world_backstep) + 1) mod 4096 = 0 /\
  timestamp (reading 4) < lastTimestamp (gen world_backstep) /\
  NextID world_backstep =
    Some ((compose 4 1 0, None), mkWorld (mkGenerator 1 4 0) [reading 10] []) /\
  compose 4 1 0 < compose 9 1 4095.
Proof.
  assert (H1 : lazyNodeID world_backstep = Some (None, world_backstep))
    by reflexivity.
  assert (H2 : clock world_backstep = reading 9 :: reading 4 :: [reading 10])
    by reflexivity.
  assert (H3 : timestamp (reading 9) = lastTimestamp (gen world_backstep))
    by (vm_compute; reflexivity).
  assert (H4 : (sequence (gen world_backstep) + 1) mod 4096 = 0)
    by reflexivity.
  assert (H5 : timestamp (reading 4) < lastTimestamp (gen world_backstep))
    by (vm_compute; reflexivity).
  split; [exact H1|]. split; [exact H2|]. split; [exact H3|].
  split; [exact H4|]. split; [exact H5|].
  destruct (NextID_wait_accepts_regression world_backstep world_backstep
              (reading 9) (reading 4) [reading 10] H1 H2 H3 H4 H5) as [R L].
  split; [exact R|].
  apply L; vm_compute; split; try discriminate; reflexivity.
Defined.

(** ** Identifiers next to each other *)

(** X13.  Within one millisecond, with a 10-bit node id and a sequence number
    left, the identifier issued is the one packed from the state before the
    call, plus one. *)
Theorem NextID_same_millisecond_successor
        (w w1 : World) (now : Z) (rest : list Z) :
  lazyNodeID w = Some (None, w1) ->
  clock w1 = now :: rest ->
  timestamp now = lastTimestamp (gen w1) ->
  0 <= nodeID (gen w1) <= 1023 ->
  0 <= sequence (gen w1) < 4095 ->
  exists w',
    NextID w =
      Some ((compose (lastTimestamp (gen w1)) (nodeID (gen w1))
                     (sequence (gen w1)) + 1, None), w').
Proof.
  intros Hl Hc Ht Hn Hs.
  assert (E : (sequence (gen w1) + 1) mod 4096 = sequence (gen w1) + 1)
    by (apply Z.mod_small; lia).
  eexists. rewrite NextID_split, Hl. apply issue_issues.
  replace (compose (lastTimestamp (gen w1)) (nodeID (gen w1))
                   (sequence (gen w1)) + 1)
    with (compose (lastTimestamp (gen w1)) (nodeID (gen w1))
                  (sequence (gen w1) + 1)).
  - eapply issues_next; try eassumption; [symmetry; exact E | lia].
  - rewrite !compose_value;
      unfold maxNodeID, maxSequence, nodeIDBits, sequenceBits; lia.
Qed.

Lemma NextID_same_millisecond_successor_witness :
  lazyNodeID world_same = Some (None, world_same) /\
  clock world_same = reading 5 :: [reading 6] /\
  timestamp (reading 5) = lastTimestamp (gen world_same) /\
  0 <= nodeID (gen world_same) <= 1023 /\
  0 <= sequence (gen world_same) < 4095 /\
  exists w', NextID world_same = Some ((compose 5 1 3 + 1, None), w').
Proof.
  assert (H1 : lazyNodeID world_same = Some (None, world_same)) by reflexivity.
  assert (H2 : clock world_same = reading 5 :: [reading 6]) by reflexivity.
  assert (H3 : timestamp (reading 5) = lastTimestamp (gen world_same))
    by (vm_compute; reflexivity).
  assert (H4 : 0 <= nodeID (gen world_same) <= 1023) by (simpl; lia).
  assert (H5 : 0 <= sequence (gen world_same) < 4095) by (simpl; lia).
  split; [exact H1|]. split; [exact H2|]. split; [exact H3|].
  split; [exact H4|]. split; [exact H5|].
  exact (NextID_same_millisecond_successor world_same world_same
           (reading 5) [reading 6] H1 H2 H3 H4 H5).
Defined.

(** X14.  Two generators whose node ids are different 10-bit values never issue
    the same identifier, whatever their clocks read. *)
Theorem distinct_nodes_distinct_identifiers
        (wa wa' wb wb' : World) (ida idb : Z) :
  NextID wa = Some ((ida, None), wa') ->
  NextID wb = Some ((idb, None), wb') ->
  0 <= nodeID (gen wa') <= 1023 ->
  0 <= nodeID (gen wb') <= 1023 ->
  nodeID (gen wa') <> nodeID (gen wb') ->
  ida <> idb.
Proof.
  intros Ha Hb Na Nb Hne E.
  apply NextID_issued in Ha as [-> Sa]. apply NextID_issued in Hb as [-> Sb].
  apply Hne.
  rewrite <- (compose_nodeID_field (lastTimestamp (gen wa')) (nodeID (gen wa'))
                                   (sequence (gen wa'))) by assumption.
  rewrite <- (compose_nodeID_field (lastTimestamp (gen wb')) (nodeID (gen wb'))
                                   (sequence (gen wb'))) by assumption.
  rewrite E. reflexivity.
Qed.

Lemma distinct_nodes_distinct_identifiers_witness :
  NextID world_same =
    Some ((compose 5 1 4, None), mkWorld (mkGenerator 1 5 4) [reading 6] []) /\
  NextID world_other =
    Some ((compose 5 2 4, None), mkWorld (mkGenerator 2 5 4) [reading 6] []) /\
  compose 5 1 4 <> compose 5 2 4.
Proof.
  assert (Ha : NextID world_same =
    Some ((compose 5 1 4, None), mkWorld (mkGenerator 1 5 4) [reading 6] []))
    by (vm_compute; reflexivity).
  assert (Hb : NextID world_other =
    Some ((compose 5 2 4, None), mkWorld (mkGenerator 2 5 4) [reading 6] []))
    by (vm_compute; reflexivity).
  split; [exact Ha|]. split; [exact Hb|].
  apply (distinct_nodes_distinct_identifiers _ _ _ _ _ _ Ha Hb); simpl;
    try lia.
Defined.

(** ** The sign bit *)

(** X15.  With a 10-bit node id, an identifier issued is an [int64]; and when
    the timestamp fits its field, the identifier is non-negative exactly
    when the timestamp is: a clock before the custom epoch gives negative
    identifiers. *)
Theorem identifier_sign (w w' : World) (id : Z) :
  NextID w = Some ((id, None), w') ->
  0 <= nodeID (gen w') <= 1023 ->
  Int64.in_range id /\
  (fits_field (lastTimestamp (gen w')) ->
   (0 <= id <-> 0 <= lastTimestamp (gen w'))).
Proof.
  intros H Hn. apply NextID_issued in H as [-> Hs].
  assert (Hn' : 0 <= nodeID (gen w') <= maxNodeID) by exact Hn.
  rewrite compose_value by assumption.
  unfold maxNodeID, maxSequence, nodeIDBits, sequenceBits in *. split.
  - unfold field_wrap, epochBits. change (41 + 1) with 42.
    assert (B := Z.mod_pos_bound (lastTimestamp (gen w') + 2 ^ 41) (2 ^ 42)
                                 ltac:(lia)).
    unfold Int64.in_range, Int64.half. lia.
  - intros F. rewrite field_wrap_fits by exact F. lia.
Qed.

Lemma identifier_sign_witness :
  NextID world_epoch =
    Some ((compose (-1) 1 1, None),
          mkWorld (mkGenerator 1 (-1) 1) [reading (-2)] []) /\
  0 <= 1 <= 1023 /\
  Int64.in_range (compose (-1) 1 1) /\
  compose (-1) 1 1 = -4190207 /\
  ~ 0 <= compose (-1) 1 1.
Proof.
  assert (H : NextID world_epoch =
    Some ((compose (-1) 1 1, None),
          mkWorld (mkGenerator 1 (-1) 1) [reading (-2)] []))
    by (vm_compute; reflexivity).
  assert (N : 0 <= 1 <= 1023) by lia.
  split; [exact H|]. split; [exact N|].
  destruct (identifier_sign world_epoch _ _ H N) as [R S].
  split; [exact R|]. split; [vm_compute; reflexivity|].
  assert (F : fits_field (-1)) by (vm_compute; split; [discriminate | reflexivity]).
  destruct (S F) as [S1 _].
  intros P. specialize (S1 P). simpl in S1. lia.
Defined.

(** ** The first call *)

(** X16.  A generator as the constructors leave it ([lastTimestamp] -1, sequence
    0), once past the node-id block: with the clock more than a millisecond
    before the custom epoch the call fails with [ErrInvalidState]; exactly
    one millisecond before it, the call takes -1 for a millisecond already
    used and issues sequence 1; from the epoch on it issues sequence 0. *)
Theorem first_call (w w1 : World) (now : Z) (rest : list Z) :
  lastTimestamp (gen w) = -1 ->
  sequence (gen w) = 0 ->
  lazyNodeID w = Some (None, w1) ->
  clock w1 = now :: rest ->
  (timestamp now < -1 ->
   NextID w = Some ((0, Some ErrInvalidState),
                    mkWorld (gen w1) rest (hosts w1))) /\
  (timestamp now = -1 ->
   NextID w = Some ((compose (-1) (nodeID (gen w1)) 1, None),
                    mkWorld (mkGenerator (nodeID (gen w1)) (-1) 1)
                            rest (hosts w1))) /\
  (0 <= timestamp now ->
   NextID w = Some ((compose (timestamp now) (nodeID (gen w1)) 0, None),
                    mkWorld (mkGenerator (nodeID (gen w1)) (timestamp now) 0)
                            rest (hosts w1))).
Proof.
  intros L S Hl Hc.
  assert (K : lastTimestamp (gen w1) = -1 /\ sequence (gen w1) = 0).
  { apply lazyNodeID_inv in Hl
      as [(_ & _ & ->) | (_ & h & hs & _ & _ & _ & _ & L1 & S1 & _)];
      [auto | split; congruence]. }
  destruct K as [L1 S1].
  rewrite NextID_split, Hl. split; [|split]; intros Ht; apply issue_issues.
  - eapply issues_regress; [eassumption | lia].
  - rewrite <- L1 at 1 2.
    eapply issues_next; try eassumption.
    + lia.
    + rewrite S1. reflexivity.
    + discriminate.
  - eapply issues_advance; [eassumption | lia].
Qed.

Lemma first_call_witness :
  lastTimestamp (gen world_1999) = -1 /\
  sequence (gen world_1999) = 0 /\
  lazyNodeID world_1999 = Some (None, world_1999) /\
  clock world_1999 = reading (-473385600000) :: [] /\
  timestamp (reading (-473385600000)) < -1 /\
  NextID world_1999 =
    Some ((0, Some ErrInvalidState), mkWorld (mkGenerator 1 (-1) 0) [] []).
Proof.
  split; [reflexivity|]. split; [reflexivity|]. split; [reflexivity|].
  split; [reflexivity|].
  assert (T : timestamp (reading (-473385600000)) < -1)
    by (vm_compute; reflexivity).
  split; [exact T|].
  destruct (first_call world_1999 world_1999 (reading (-473385600000)) []
              eq_refl eq_refl eq_refl eq_refl) as (A & _ & _).
  exact (A T).
Defined.

(** ** Reading identifiers back *)

(** X18.  Whatever the timestamp, the node id and the sequence read back from the
    packed value unchanged; the timestamp reads back reduced to 42 bits
    with sign, so unchanged within [-2^41, 2^41) and wrapped beyond. *)
Theorem decompose_compose (t n s : Z) :
  0 <= n <= 1023 -> 0 <= s <= 4095 ->
  decompose (compose t n s) = (field_wrap t, n, s) /\
  (- 2 ^ 41 <= t < 2 ^ 41 -> decompose (compose t n s) = (t, n, s)).
Proof.
  intros Hn Hs.
  assert (Hn' : 0 <= n <= maxNodeID) by exact Hn.
  assert (Hs' : 0 <= s <= maxSequence) by exact Hs.
  assert (E : decompose (compose t n s) = (field_wrap t, n, s)).
  { unfold decompose.
    rewrite compose_timestamp_field, compose_nodeID_field,
            compose_sequence_field by assumption.
    reflexivity. }
  split; [exact E|].
  intros Ht. rewrite E, field_wrap_fits by exact Ht. reflexivity.
Qed.

Lemma decompose_compose_witness :
  0 <= 217 <= 1023 /\ 0 <= 3 <= 4095 /\
  decompose (compose (2 ^ 41) 217 3) = (- 2 ^ 41, 217, 3) /\
  decompose (compose (-7) 217 3) = (-7, 217, 3).
Proof.
  assert (H1 : 0 <= 217 <= 1023) by lia.
  assert (H2 : 0 <= 3 <= 4095) by lia.
  split; [exact H1|]. split; [exact H2|]. split.
  - rewrite (proj1 (decompose_compose (2 ^ 41) 217 3 H1 H2)). reflexivity.
  - apply (proj2 (decompose_compose (-7) 217 3 H1 H2)). lia.
Defined.

(** X19.  Identifiers are ordered by time across generators: with 10-bit node
    ids and timestamps that fit the field, an identifier issued in an
    earlier millisecond is below one issued in a later millisecond,
    whichever generators issued them. *)
Theorem earlier_millisecond_smaller_identifier
        (wa wa' wb wb' : World) (ida idb : Z) :
  NextID wa = Some ((ida, None), wa') ->
  NextID wb = Some ((idb, None), wb') ->
  0 <= nodeID (gen wa') <= 1023 ->
  0 <= nodeID (gen wb') <= 1023 ->
  fits_field (lastTimestamp (gen wa')) ->
  fits_field (lastTimestamp (gen wb')) ->
  lastTimestamp (gen wa') < lastTimestamp (gen wb') ->
  ida < idb.
Proof.
  intros Ha Hb Na Nb Fa Fb Hlt.
  apply NextID_issued in Ha as [-> Sa]. apply NextID_issued in Hb as [-> Sb].
  assert (Na' : 0 <= nodeID (gen wa') <= maxNodeID) by exact Na.
  assert (Nb' : 0 <= nodeID (gen wb') <= maxNodeID) by exact Nb.
  rewrite !compose_fits by assumption.
  unfold maxNodeID, maxSequence, nodeIDBits, sequenceBits in *. lia.
Qed.

Lemma earlier_millisecond_smaller_identifier_witness :
  NextID world_other =
    Some ((compose 5 2 4, None), mkWorld (mkGenerator 2 5 4) [reading 6] []) /\
  NextID (mkWorld (mkGenerator 1 5 4) [reading 6] []) =
    Some ((compose 6 1 0, None), mkWorld (mkGenerator 1 6 0) [] []) /\
  compose 5 2 4 < compose 6 1 0.
Proof.
  assert (Ha : NextID world_other =
    Some ((compose 5 2 4, None), mkWorld (mkGenerator 2 5 4) [reading 6] []))
    by (vm_compute; reflexivity).
  assert (Hb : NextID (mkWorld (mkGenerator 1 5 4) [reading 6] []) =
    Some ((compose 6 1 0, None), mkWorld (mkGenerator 1 6 0) [] []))
    by (vm_compute; reflexivity).
  split; [exact Ha|]. split; [exact Hb|].
  apply (earlier_millisecond_smaller_identifier _ _ _ _ _ _ Ha Hb);
    simpl; try lia; vm_compute; split; try discriminate; reflexivity.
Defined.
